(** * csvdrop: the CSV merge function and the table editor

    A shallow embedding of the two source files of the repository:

    - [netlify/functions/process-csv.js], the serverless handler that reads
      the uploaded CSV files, concatenates their rows, removes blank rows and
      duplicate rows and answers with one CSV document ([Module ProcessCsv]);
    - the front-end script, which keeps the parsed rows of one CSV file in
      [csvData], renders them as a table, lets the user edit a column in
      place and offers the edited rows for download ([Module FrontEnd]).

    [Module JS] holds the part of the language both files rely on: property
    bags in key order, [String.prototype.trim] and [JSON.stringify]. *)

From Stdlib Require Import Ascii String NArith.
From stdpp Require Import prelude strings gmap.

(** ** JavaScript values and built-ins *)

Module JS.

(** A cell of a parsed row.  Papa Parse with [header: true] and without
    [dynamicTyping] yields strings; the handler also guards against [null]
    and [undefined], so both are values of the model. *)
Inductive Value : Type :=
| Undefined
| Null
| Str (s : string).

#[global] Instance Value_eq_dec : EqDecision Value.
Proof. solve_decision. Defined.

(** An object used as a record of cells: its own enumerable properties in
    the order [Object.keys] lists them (for header names, insertion order). *)
Abbreviation Row := (list (string * Value)).

Definition Object_keys (row : Row) : list string := row.*1.

Definition Object_values (row : Row) : list Value := row.*2.

(** [row[k]]: the value of the own property [k], [undefined] without one. *)
Fixpoint get_prop (row : Row) (k : string) : Value :=
  match row with
  | [] => Undefined
  | (k', v) :: rest => if decide (k' = k) then v else get_prop rest k
  end.

Fixpoint has_prop (row : Row) (k : string) : bool :=
  match row with
  | [] => false
  | (k', _) :: rest => if decide (k' = k) then true else has_prop rest k
  end.

(** [row[k] = v]: overwrites the property where it stands, or adds it after
    the existing ones. *)
Fixpoint set_prop (row : Row) (k : string) (v : Value) : Row :=
  match row with
  | [] => [(k, v)]
  | (k', v') :: rest =>
      if decide (k' = k) then (k', v) :: rest else (k', v') :: set_prop rest k v
  end.

(** [String(v)]. *)
Definition String_ (v : Value) : string :=
  match v with
  | Undefined => "undefined"
  | Null => "null"
  | Str s => s
  end.

(** Strings are sequences of the 8-bit characters of [ascii], read as the
    code units U+0000 to U+00FF.  In that range the white space and line
    terminators that [trim] strips are TAB, LF, VT, FF, CR, SPACE and
    NO-BREAK SPACE. *)
Definition is_white_space (c : ascii) : bool :=
  let n := N_of_ascii c in
  ((9 <=? n) && (n <=? 13) || (n =? 32) || (n =? 160))%N.

Fixpoint trimStart (s : string) : string :=
  match s with
  | EmptyString => EmptyString
  | String c rest => if is_white_space c then trimStart rest else s
  end.

(** [trimEnd] drops the white space that nothing but white space follows. *)
Fixpoint trimEnd (s : string) : string :=
  match s with
  | EmptyString => EmptyString
  | String c rest =>
      match trimEnd rest with
      | EmptyString => if is_white_space c then EmptyString else String c EmptyString
      | kept => String c kept
      end
  end.

Definition trim (s : string) : string := trimEnd (trimStart s).

(** *** JSON.stringify

    [QuoteJSONString] of ECMA-262: the two-character escapes, [\u00xx] for
    the other control characters, every other character as it is. *)
Definition dquote : ascii := "034"%char.
Definition backslash : ascii := "092"%char.

Definition hex_digit (n : N) : ascii :=
  if (n <? 10)%N then ascii_of_N (48 + n) else ascii_of_N (87 + n).

Definition escape_char (c : ascii) : string :=
  let n := N_of_ascii c in
  if (n =? 8)%N then "\b"
  else if (n =? 9)%N then "\t"
  else if (n =? 10)%N then "\n"
  else if (n =? 12)%N then "\f"
  else if (n =? 13)%N then "\r"
  else if (n =? 34)%N then String backslash (String dquote "")
  else if (n =? 92)%N then "\\"
  else if (n <? 32)%N then
    "\u00" +:+ String (hex_digit (n / 16)) (String (hex_digit (n mod 16)) "")
  else String c "".

Fixpoint escape (s : string) : string :=
  match s with
  | EmptyString => EmptyString
  | String c rest => escape_char c +:+ escape rest
  end.

Definition JSON_quote (s : string) : string :=
  String dquote (escape s +:+ String dquote "").

(** [SerializeJSONProperty] on a cell: [undefined] has no JSON text. *)
Definition JSON_value (v : Value) : option string :=
  match v with
  | Undefined => None
  | Null => Some "null"
  | Str s => Some (JSON_quote s)
  end.

Definition JSON_member (p : string * Value) : option string :=
  text ← JSON_value p.2; Some (JSON_quote p.1 +:+ ":" +:+ text).

(** [JSON.stringify(row)]: the members of the defined cells, in key order,
    joined by commas between braces. *)
Definition JSON_stringify (row : Row) : string :=
  "{" +:+ String.concat "," (omap JSON_member row) +:+ "}".

(** The inverse of [escape_char] on the front of a text, used to read a
    quoted string back: [None] at a closing quote or at text no escape
    produces. *)
Definition hex_value (c : ascii) : option N :=
  let n := N_of_ascii c in
  if (48 <=? n)%N && (n <=? 57)%N then Some (n - 48)%N
  else if (97 <=? n)%N && (n <=? 102)%N then Some (n - 87)%N
  else None.

Definition unescape_char (s : string) : option (ascii * string) :=
  match s with
  | EmptyString => None
  | String c rest =>
      if decide (c = dquote) then None
      else if decide (c = backslash) then
        match rest with
        | String "b" k => Some ("008"%char, k)
        | String "t" k => Some ("009"%char, k)
        | String "n" k => Some ("010"%char, k)
        | String "f" k => Some ("012"%char, k)
        | String "r" k => Some ("013"%char, k)
        | String "u" (String "0" (String "0" (String h (String l k)))) =>
            hi ← hex_value h; lo ← hex_value l; Some (ascii_of_N (16 * hi + lo), k)
        | String e k =>
            if decide (e = dquote) then Some (dquote, k)
            else if decide (e = backslash) then Some (backslash, k)
            else None
        | EmptyString => None
        end
      else Some (c, rest)
  end.

(** Code that can throw: the value, or the message of the exception. *)
Inductive Exc (A : Type) : Type :=
| Ok (a : A)
| Throw (message : string).

#[global] Arguments Ok {A} a.
#[global] Arguments Throw {A} message.

#[global] Instance Exc_ret : MRet Exc := λ A a, Ok a.

#[global] Instance Exc_bind : MBind Exc := λ A B f m,
  match m with
  | Ok a => f a
  | Throw message => Throw message
  end.

End JS.

Export JS.

(** ** netlify/functions/process-csv.js *)

Module ProcessCsv.

(** The event of the function: the verb and the multipart body, which only
    formidable reads. *)
Record Event : Type := {
  httpMethod : string;
  rawBody : string
}.

(** An uploaded file as formidable describes it: [filepath] in its current
    releases, [path] in the older ones. *)
Record File : Type := {
  filepath : option string;
  path : option string
}.

(** [files.files]: missing, one file, or an array of files. *)
Inductive FilesField : Type :=
| NoField
| OneFile (file : File)
| FileArray (files : list File).

(** What [Papa.parse] returns: the rows, and the errors it met while it
    read them.  The handler reads [data] alone. *)
Record ParseResult : Type := {
  data : list Row;
  errors : list string
}.

Record Response : Type := {
  statusCode : nat;
  headers : list (string * string);
  body : string
}.

(** The modules the handler requires.  None of them is part of the
    repository: the handler is modelled over whatever they do. *)
Record Modules : Type := {
  form_parse : Event → Exc FilesField;
  readFileSync : string → Exc string;
  Papa_parse : string → Exc ParseResult;
  Parser_parse : list Row → Exc string
}.

(** [value !== null && value !== undefined && String(value).trim() !== ''] *)
Definition has_content (value : Value) : Prop :=
  value ≠ Null ∧ value ≠ Undefined ∧ trim (String_ value) ≠ "".

#[global] Instance has_content_dec value : Decision (has_content value).
Proof. unfold has_content. apply _. Defined.

(** Remove completely empty rows (where all columns are blank). *)
Definition removeEmptyRows (allData : list Row) : list Row :=
  filter (λ row, Exists has_content (Object_values row)) allData.

(** Remove duplicate rows based on JSON stringification of the row: one
    turn of the [forEach] over the state [(seen, uniqueData)]. *)
Definition remember (state : gset string * list Row) (row : Row)
  : gset string * list Row :=
  let key := JSON_stringify row in
  if decide (key ∈ state.1) then state
  else ({[ key ]} ∪ state.1, state.2 ++ [row]).

Definition removeDuplicates (allData : list Row) : list Row :=
  (foldl remember (∅, []) allData).2.

Definition csv_headers : list (string * string) :=
  [ ("Content-Type", "text/csv");
    ("Content-Disposition",
     "attachment; filename=" +:+ String dquote ("combined.csv" +:+ String dquote "")) ].

Section Handler.

Context (M : Modules).

(** [file.filepath || file.path] *)
Definition file_path (file : File) : option string :=
  match filepath file with
  | Some p => if decide (p = "") then path file else Some p
  | None => path file
  end.

(** The body of the [forEach] over the files: read, parse, take the rows. *)
Definition read_rows (file : File) : Exc (list Row) :=
  match file_path file with
  | None => Throw "The path argument must be of type string"
  | Some p =>
      content ← readFileSync M p;
      results ← Papa_parse M content;
      mret (data results)
  end.

Fixpoint forEach_file (fileArray : list File) (allData : list Row)
  : Exc (list Row) :=
  match fileArray with
  | [] => mret allData
  | file :: rest => rows ← read_rows file; forEach_file rest (allData ++ rows)
  end.

(** The rows that reach the serializer. *)
Definition uniqueData (fileArray : list File) : Exc (list Row) :=
  allData ← forEach_file fileArray [];
  mret (removeDuplicates (removeEmptyRows allData)).

(** The [try] block. *)
Definition process (fileArray : list File) : Exc Response :=
  rows ← uniqueData fileArray;
  csv ← Parser_parse M rows;
  mret {| statusCode := 200; headers := csv_headers; body := csv |}.

Definition select_files (field : FilesField) : list File :=
  match field with
  | NoField => []
  | OneFile file => [file]
  | FileArray files => files
  end.

Definition handler (event : Event) : Response :=
  if decide (httpMethod event ≠ "POST") then
    {| statusCode := 405; headers := []; body := "Method Not Allowed" |}
  else
    match form_parse M event with
    | Throw _ =>
        {| statusCode := 500; headers := []; body := "Error parsing form data" |}
    | Ok field =>
        let fileArray := select_files field in
        if decide (length fileArray = 0) then
          {| statusCode := 400; headers := []; body := "No files uploaded" |}
        else
          match process fileArray with
          | Ok response => response
          | Throw _ =>
              {| statusCode := 500; headers := [];
                 body := "Server error processing CSV files" |}
          end
    end.

End Handler.

End ProcessCsv.

Export ProcessCsv.

(** ** The promise of the handler *)

(** How the promise of [exports.handler] settles. *)
Inductive Settled : Type :=
| Resolved (response : Response)
| Rejected (reason : string).

(** [exports.handler], an async function.  A request that is not a POST is
    answered before formidable is reached.  For a POST, [formidable(...)]
    and [form.parse] run in the executor of the promise, outside the [try]:
    an exception they throw there ([thrown], if any) rejects the promise
    and no response is built.  Otherwise the callback resolves it with the
    answer of [handler]. *)
Definition exports_handler (M : Modules) (thrown : Event → option string)
  (event : Event) : Settled :=
  if decide (httpMethod event ≠ "POST") then
    Resolved {| statusCode := 405; headers := []; body := "Method Not Allowed" |}
  else
    match thrown event with
    | Some reason => Rejected reason
    | None => Resolved (handler M event)
    end.

(** ** The serializer of the merge, as the specification describes it

    [Parser.parse] of json2csv is called by the handler without options.
    Its source is not part of the repository, so the handler above takes
    the serializer as one of its modules; this module states what the
    specification says of it. *)

Module Json2csv.

(** Modelled from the spec: how json2csv writes a cell.  All values are
    treated as strings; absent and blank values are empty cells. *)
Definition cell_text (v : Value) : string :=
  match v with
  | Str s => s
  | Undefined | Null => ""
  end.

(** Modelled from the spec: the columns json2csv writes without a [fields]
    option, "the column set derived from the first surviving record's
    keys" (section 4.3, step 4). *)
Definition fields (rows : list Row) : list string :=
  match rows with
  | [] => []
  | first :: _ => Object_keys first
  end.

(** Modelled from the spec: a record's line, one cell per header column
    ("downstream columns absent from later rows render as empty cells"). *)
Definition line (columns : list string) (row : Row) : list string :=
  (λ column, cell_text (get_prop row column)) <$> columns.

Definition table (rows : list Row) : list (list string) :=
  fields rows :: (line (fields rows) <$> rows).

Definition line_feed : string := String "010"%char "".

(** Modelled from the spec: the layout of the text, as the examples of
    section 8 show it: cells joined by commas, lines by line feeds. *)
Definition csv_text (lines : list (list string)) : string :=
  String.concat line_feed (String.concat "," <$> lines).

(** Modelled from the spec: [Parser.parse] of json2csv, which the handler
    calls without options and whose source is not part of the repository.
    Section 4.3 of the specification, step 4 and the error conditions: the
    header is the column set of the first surviving record's keys, a header
    column that a later record lacks is an empty cell, and with nothing
    left to serialize the merge fails with [AllRowsEmptyError]. *)
Definition parse (rows : list Row) : Exc string :=
  match rows with
  | [] => Throw "AllRowsEmptyError"
  | _ :: _ => Ok (csv_text (table rows))
  end.

End Json2csv.

(** ** The front-end script *)

Module FrontEnd.

(** What a table cell holds: the text assigned to [textContent], or the
    [input] element that [toggleModification] put in its place, with the
    value, the column and the row index the element carries. *)
Inductive Content : Type :=
| Text (value : Value)
| Input (value : Value) (column : string) (rowIndex : nat).

(** A [td] of the table body with its [data-column] and [data-row-index]. *)
Record Cell : Type := {
  td_column : string;
  td_rowIndex : nat;
  td_content : Content
}.

(** A [.modify-checkbox] of the header row. *)
Record Checkbox : Type := {
  cb_column : string;
  checked : bool
}.

(** The state of the page: the variable [csvData] ([None] when it holds
    [null] or [undefined]), the table inside [tableContainer] in document
    order, and whether the download button is shown. *)
Record Page : Type := {
  csvData : option (list Row);
  checkboxes : list Checkbox;
  cells : list Cell;
  downloadButton_shown : bool
}.

(** What a handler lets the user see besides the table. *)
Inductive Effect : Type :=
| Alert (message : string)
| Download (filename : string) (content : string).

Definition initial : Page :=
  {| csvData := Some []; checkboxes := []; cells := [];
     downloadButton_shown := false |}.

(** *** buildTable *)

Definition row_cells (rowIndex : nat) (row : Row) : list Cell :=
  (λ col, {| td_column := col; td_rowIndex := rowIndex;
             td_content := Text (get_prop row col) |}) <$> Object_keys row.

Definition buildTable (page : Page) : Page :=
  match csvData page with
  | None | Some [] =>
      {| csvData := csvData page; checkboxes := []; cells := [];
         downloadButton_shown := downloadButton_shown page |}
  | Some ((first :: _) as rows) =>
      {| csvData := csvData page;
         checkboxes :=
           (λ col, {| cb_column := col; checked := false |}) <$> Object_keys first;
         cells := mjoin (imap row_cells rows);
         downloadButton_shown := downloadButton_shown page |}
  end.

(** *** querySelectorAll

    The selector is the text [td[data-column='] ++ col ++ ['\]].  Selectors
    are modelled on the fragment that text falls into for ordinary names:
    comma-separated lists of [td[data-column='v'\]], where every character
    of [v] stands for itself inside a CSS string.  [None] is a selector
    outside the fragment: a syntax error, or a selector form that is not
    modelled. *)
Definition apostrophe : ascii := "039"%char.

Definition css_plain (c : ascii) : bool :=
  let n := N_of_ascii c in
  negb ((n =? 0) || (n =? 10) || (n =? 12) || (n =? 13) || (n =? 39) || (n =? 92))%N.

Fixpoint strip_prefix (pre s : string) : option string :=
  match pre, s with
  | EmptyString, _ => Some s
  | String a pre', String b s' => if decide (a = b) then strip_prefix pre' s' else None
  | String _ _, EmptyString => None
  end.

(** The body of a CSS string up to its closing apostrophe, and what follows. *)
Fixpoint read_string (s : string) : option (string * string) :=
  match s with
  | EmptyString => None
  | String c rest =>
      if decide (c = apostrophe) then Some (EmptyString, rest)
      else if css_plain c then
        r ← read_string rest; Some (String c r.1, r.2)
      else None
  end.

Definition selector_prefix : string := "td[data-column=" +:+ String apostrophe "".

Fixpoint selector_columns (fuel : nat) (selector : string) : option (list string) :=
  match fuel with
  | 0 => None
  | S fuel =>
      s1 ← strip_prefix selector_prefix selector;
      r ← read_string s1;
      s3 ← strip_prefix "]" r.2;
      match s3 with
      | EmptyString => Some [r.1]
      | String c s4 =>
          if decide (c = ","%char) then (r.1 ::.) <$> selector_columns fuel s4
          else None
      end
  end.

(** The columns whose cells [querySelectorAll] returns. *)
Definition querySelectorAll (selector : string) : option (list string) :=
  selector_columns (String.length selector) selector.

Definition column_selector (col : string) : string :=
  selector_prefix +:+ col +:+ String apostrophe "]".

(** *** toggleModification

    The body of the [forEach] on one selected cell, and the loop over the
    cells in document order.  [csvData[rowIndex]] without a row throws a
    TypeError, which ends the loop and leaves the later cells as they are. *)
Definition toggle_cell (rows : list Row) (col : string) (isChecked : bool)
  (cell : Cell) : option Cell :=
  row ← rows !! td_rowIndex cell;
  let currentValue := get_prop row col in
  Some {| td_column := td_column cell; td_rowIndex := td_rowIndex cell;
          td_content := if isChecked
                        then Input currentValue col (td_rowIndex cell)
                        else Text currentValue |}.

Fixpoint toggle_cells (rows : option (list Row)) (selected : list string)
  (col : string) (isChecked : bool) (tds : list Cell) : list Cell :=
  match tds with
  | [] => []
  | cell :: rest =>
      if decide (td_column cell ∈ selected) then
        match rows ≫= (λ rows, toggle_cell rows col isChecked cell) with
        | Some cell' => cell' :: toggle_cells rows selected col isChecked rest
        | None => cell :: rest
        end
      else cell :: toggle_cells rows selected col isChecked rest
  end.

Definition toggleModification (checkbox : Checkbox) (page : Page) : option Page :=
  selected ← querySelectorAll (column_selector (cb_column checkbox));
  Some {| csvData := csvData page;
          checkboxes := checkboxes page;
          cells := toggle_cells (csvData page) selected (cb_column checkbox)
                     (checked checkbox) (cells page);
          downloadButton_shown := downloadButton_shown page |}.

(** The [change] event of the checkbox at position [i] of the header: the
    browser flips the box, then the listener runs. *)
Definition toggled (checkbox : Checkbox) : Checkbox :=
  {| cb_column := cb_column checkbox; checked := negb (checked checkbox) |}.

Definition checkbox_change (i : nat) (page : Page) : option Page :=
  match checkboxes page !! i with
  | None => Some page
  | Some checkbox =>
      toggleModification (toggled checkbox)
        {| csvData := csvData page;
           checkboxes := <[i := toggled checkbox]> (checkboxes page);
           cells := cells page;
           downloadButton_shown := downloadButton_shown page |}
  end.

(** *** The input listener: [csvData[ri][column] = this.value] *)
Definition input_listener (ri : nat) (column : string) (value : string)
  (rows : list Row) : Exc (list Row) :=
  match rows !! ri with
  | None => Throw "Cannot set properties of undefined"
  | Some row => Ok (<[ri := set_prop row column (Str value)]> rows)
  end.

(** [csvData[ri][col]] *)
Definition read_cell (rows : list Row) (ri : nat) (col : string) : Exc Value :=
  match rows !! ri with
  | None => Throw "Cannot read properties of undefined"
  | Some row => Ok (get_prop row col)
  end.

(** An [input] event on the cell at position [i]: the element takes the
    typed text, then its listener writes it to [csvData]. *)
Definition input_event (i : nat) (typed : string) (page : Page) : Page :=
  match cells page !! i with
  | Some {| td_column := c; td_rowIndex := r; td_content := Input _ column ri |} =>
      {| csvData :=
           match csvData page with
           | Some rows =>
               match input_listener ri column typed rows with
               | Ok rows' => Some rows'
               | Throw _ => Some rows
               end
           | None => None
           end;
         checkboxes := checkboxes page;
         cells := <[i := {| td_column := c; td_rowIndex := r;
                            td_content := Input (Str typed) column ri |}]> (cells page);
         downloadButton_shown := downloadButton_shown page |}
  | _ => page
  end.

Section Papa.

(** Papa Parse on the page: [parse] ends in [complete] with the rows or in
    [error] with a message; [unparse] renders rows as CSV text. *)
Context (Papa_parse : string → Exc (list Row)) (Papa_unparse : list Row → string).

(** The [change] listener of the file input, on the chosen file if any. *)
Definition csvInput_change (file : option string) (page : Page)
  : Page * list Effect :=
  match file with
  | None => (page, [])
  | Some content =>
      match Papa_parse content with
      | Ok rows =>
          let loaded :=
            buildTable {| csvData := Some rows; checkboxes := checkboxes page;
                          cells := cells page;
                          downloadButton_shown := downloadButton_shown page |} in
          ({| csvData := csvData loaded; checkboxes := checkboxes loaded;
              cells := cells loaded; downloadButton_shown := true |}, [])
      | Throw message => (page, [Alert ("Error parsing CSV file: " +:+ message)])
      end
  end.

(** The [click] listener of the download button. *)
Definition downloadButton_click (page : Page) : Page * list Effect :=
  match csvData page with
  | None | Some [] => (page, [Alert "No CSV loaded to download."])
  | Some ((_ :: _) as rows) => (page, [Download "modified.csv" (Papa_unparse rows)])
  end.

End Papa.

(** The [click] listener of the combine button: [fetch] posts the files to
    the function and yields its response, or fails with a message. *)
Definition response_ok (response : Response) : bool :=
  (200 <=? statusCode response) && (statusCode response <=? 299).

Definition combineButton_click (fetch : list string → Exc Response)
  (files : option (list string)) : list Effect :=
  match files with
  | None => [Alert "Please select at least two CSV files to combine."]
  | Some chosen =>
      if decide (length chosen < 2) then
        [Alert "Please select at least two CSV files to combine."]
      else
        match fetch chosen with
        | Ok response =>
            if response_ok response then [Download "combined.csv" (body response)]
            else [Alert "Error combining files: Network response was not ok"]
        | Throw message => [Alert ("Error combining files: " +:+ message)]
        end
  end.

End FrontEnd.

Export FrontEnd.

(** * The vocabulary of the properties *)

(** A text all of whose characters are white space (the empty text is one). *)
Fixpoint whitespace_only (s : string) : bool :=
  match s with
  | EmptyString => true
  | String c rest => is_white_space c && whitespace_only rest
  end.

(** The properties [JSON.stringify] writes: those whose value is defined. *)
Definition serialized (row : Row) : Row := filter (λ p, p.2 ≠ Undefined) row.

Definition member_text (p : string * Value) : string :=
  JSON_quote p.1 +:+ ":" +:+ default "" (JSON_value p.2).

(** The comma-separated members, the closing brace and what follows. *)
Definition joined (members : list string) (k : string) : string :=
  String.concat "," members +:+ String "}" k.

(** A cell that counts as blank: [null], [undefined], or a text that is
    empty or white space only. *)
Definition blank (value : Value) : Prop :=
  value = Null ∨ value = Undefined ∨ ∃ s, value = Str s ∧ whitespace_only s = true.

(** Two rows are the same record for the filter when they list the same
    defined cells, column names and values, in the same order. *)
Definition identical (r1 r2 : Row) : Prop := serialized r1 = serialized r2.

#[global] Instance identical_dec r1 r2 : Decision (identical r1 r2).
Proof. unfold identical. apply _. Defined.

(** The filter in the words of the specification: walking the rows in
    order, a row is dropped when one of the rows before it is identical,
    and kept where it stands otherwise. *)
Fixpoint first_occurrences (earlier rows : list Row) : list Row :=
  match rows with
  | [] => []
  | row :: rest =>
      let later := first_occurrences (earlier ++ [row]) rest in
      if decide (Exists (identical row) earlier) then later else row :: later
  end.

(** What [seen] holds after the rows [earlier]: their keys. *)
Definition keys_of (seen : gset string) (earlier : list Row) : Prop :=
  ∀ key, key ∈ seen ↔ ∃ row, row ∈ earlier ∧ JSON_stringify row = key.

Definition method_not_allowed : Response :=
  {| statusCode := 405; headers := []; body := "Method Not Allowed" |}.

Definition form_error : Response :=
  {| statusCode := 500; headers := []; body := "Error parsing form data" |}.

Definition no_files_uploaded : Response :=
  {| statusCode := 400; headers := []; body := "No files uploaded" |}.

Definition server_error : Response :=
  {| statusCode := 500; headers := []; body := "Server error processing CSV files" |}.

(** The first file of the upload whose reading or parsing throws. *)
Fixpoint failing_file (M : Modules) (fileArray : list File) : option File :=
  match fileArray with
  | [] => None
  | file :: rest =>
      match read_rows M file with
      | Throw _ => Some file
      | Ok _ => failing_file M rest
      end
  end.

(** ** Sample uploads *)

Module Samples.

Definition post : Event := {| httpMethod := "POST"; rawBody := "" |}.

Definition upload (p : string) : File := {| filepath := Some p; path := None |}.

Definition r1 : Row := [("a", Str "1"); ("b", Str "2")].
Definition r2 : Row := [("a", Str "3"); ("b", Str "4")].
Definition r3 : Row := [("a", Str "5"); ("b", Str "6")].

(** [r1] with its columns in the other order, as a file whose header is
    [b,a] yields it. *)
Definition r1_swapped : Row := [("b", Str "2"); ("a", Str "1")].

Definition blank_row : Row := [("a", Str "  "); ("b", Str "")].

(** A disk on which every path but [missing] can be read (the content names
    the file), a parser that knows the rows of each file, and the
    serializer of [Json2csv]. *)
Definition modules (field : FilesField) (missing : string)
  (tables : list (string * list Row)) : Modules :=
  {| form_parse := λ _, Ok field;
     readFileSync := λ p,
       if decide (p = missing) then Throw "ENOENT: no such file or directory"
       else Ok p;
     Papa_parse := λ content,
       Ok {| data := default [] (list_to_map (M := gmap string (list Row)) tables !! content);
             errors := [] |};
     Parser_parse := Json2csv.parse |}.

Definition two_files : FilesField := FileArray [upload "a.csv"; upload "b.csv"].

Definition two_tables : list (string * list Row) :=
  [("a.csv", [r1; r2]); ("b.csv", [r2; r3])].

End Samples.

(** Two rows with the same set of (column, value) pairs. *)
Definition same_pair_set (r1 r2 : Row) : Prop := ∀ p, p ∈ r1 ↔ p ∈ r2.

(** An [input] event as the listener sees it: the slot its element stands
    for and the text typed into it. *)
Record Edit : Type := {
  edit_row : nat;
  edit_column : string;
  edit_value : string
}.

Fixpoint apply_edits (edits : list Edit) (rows : list Row) : Exc (list Row) :=
  match edits with
  | [] => Ok rows
  | edit :: rest =>
      rows' ← input_listener (edit_row edit) (edit_column edit) (edit_value edit) rows;
      apply_edits rest rows'
  end.

(** The value of the last edit of the slot [(ri, col)], if there is one. *)
Fixpoint last_written (edits : list Edit) (ri : nat) (col : string) : option string :=
  match edits with
  | [] => None
  | edit :: rest =>
      match last_written rest ri col with
      | Some value => Some value
      | None =>
          if decide (edit_row edit = ri ∧ edit_column edit = col)
          then Some (edit_value edit) else None
      end
  end.

(** A column name all of whose characters stand for themselves inside the
    selector's CSS string. *)
Fixpoint plain_name (col : string) : bool :=
  match col with
  | EmptyString => true
  | String c rest => css_plain c && plain_name rest
  end.

(** A header whose first column is named so that the selector built from
    the name is [td[data-column='a'\],td[data-column='b'\]]. *)
Definition crafted_name : string :=
  "a" +:+ String apostrophe "],td[data-column=" +:+ String apostrophe "b".

Definition crafted_page : Page :=
  buildTable {| csvData := Some [[(crafted_name, Str "w"); ("a", Str "1"); ("b", Str "2")]];
                checkboxes := []; cells := []; downloadButton_shown := true |}.

(** Every cell of the table, and every input put into one, stands for a row
    that [csvData] has. *)
Definition in_range (rows : list Row) (cell : Cell) : Prop :=
  td_rowIndex cell < length rows ∧
  match td_content cell with
  | Input _ _ ri => ri < length rows
  | Text _ => True
  end.

Definition slots_in_range (page : Page) : Prop :=
  ∃ rows, csvData page = Some rows ∧ Forall (in_range rows) (cells page).

(** A table of two people, as [buildTable] renders it. *)
Definition people_page : Page :=
  buildTable {| csvData := Some [ [("name", Str "Alice"); ("age", Str "30")];
                                  [("name", Str "Bob"); ("age", Str "25")] ];
                checkboxes := []; cells := []; downloadButton_shown := true |}.

(** The page after the box of [age] was ticked. *)
Definition editing_page : Page :=
  default people_page (checkbox_change 1 people_page).

(** ** The table and the events of the user *)

#[global] Instance Checkbox_eq_dec : EqDecision Checkbox.
Proof. solve_decision. Defined.

(** The box of the column [col] is ticked. *)
Definition ticked (boxes : list Checkbox) (col : string) : Prop :=
  {| cb_column := col; checked := true |} ∈ boxes.

#[global] Instance ticked_dec boxes col : Decision (ticked boxes col).
Proof. unfold ticked. apply _. Defined.

(** A cell that shows the current value of its slot of [rows]: in an input
    that stands for the slot when the box of its column is ticked, as text
    when it is not. *)
Definition rendered (rows : list Row) (boxes : list Checkbox) (cell : Cell) : Prop :=
  ∃ row,
    rows !! td_rowIndex cell = Some row ∧
    td_content cell
    = if decide (ticked boxes (td_column cell))
      then Input (get_prop row (td_column cell)) (td_column cell) (td_rowIndex cell)
      else Text (get_prop row (td_column cell)).

(** The slots of the rows, row by row from the index [n] on, each row's in
    the order of its keys. *)
Fixpoint slots_from (n : nat) (rows : list Row) : list (string * nat) :=
  match rows with
  | [] => []
  | row :: rest => ((λ k, (k, n)) <$> Object_keys row) ++ slots_from (S n) rest
  end.

(** The slot a cell stands for: its [data-column] and [data-row-index]. *)
Definition cell_slot (cell : Cell) : string * nat := (td_column cell, td_rowIndex cell).

(** [Object.keys(csvData[0])], nothing without a first row. *)
Definition header (rows : list Row) : list string :=
  match rows with
  | [] => []
  | first :: _ => Object_keys first
  end.

(** The page shows [csvData]: one box per column of the first row, one cell
    per slot, every cell rendered from the rows and the boxes.  Rows are
    objects, so no row has a key twice; the column names with a box are
    plain. *)
Definition shows_csvData (page : Page) : Prop :=
  ∃ rows,
    csvData page = Some rows ∧
    Forall (λ row : Row, NoDup (Object_keys row)) rows ∧
    cb_column <$> checkboxes page = header rows ∧
    Forall (λ col, plain_name col = true) (header rows) ∧
    cell_slot <$> cells page = slots_from 0 rows ∧
    Forall (rendered rows (checkboxes page)) (cells page).

(** The rows and columns of [csvData]: the keys of each row. *)
Definition shape (page : Page) : option (list (list string)) :=
  (λ rows : list Row, Object_keys <$> rows) <$> csvData page.

(** What the user does on the table: ticks or unticks the box at a
    position of the header, or types a text into the cell at a position of
    the body. *)
Inductive UserEvent : Type :=
| Tick (i : nat)
| Typing (i : nat) (typed : string).

(** The listeners that an event runs.  A change event is [None] when its
    listener builds a selector outside the fragment of [querySelectorAll]
    that is modelled. *)
Definition step (event : UserEvent) (page : Page) : option Page :=
  match event with
  | Tick i => checkbox_change i page
  | Typing i typed => Some (input_event i typed page)
  end.

Fixpoint run (events : list UserEvent) (page : Page) : option Page :=
  match events with
  | [] => Some page
  | event :: rest => page' ← step event page; run rest page'
  end.

(** The values of the column [col], row by row. *)
Definition column_values (col : string) (rows : list Row) : list Value :=
  (λ row : Row, get_prop row col) <$> rows.

(** The rows of [people_page]. *)
Definition people : list Row :=
  [ [("name", Str "Alice"); ("age", Str "30")];
    [("name", Str "Bob"); ("age", Str "25")] ].

(** The slot that the input in the cell at position [i] stands for: the
    [data-row-index] and the [data-column] of the element, which its
    listener reads.  Nothing when the cell holds no input. *)
Definition input_slot (page : Page) (i : nat) : option (nat * string) :=
  match cells page !! i with
  | Some cell =>
      match td_content cell with
      | Input _ column ri => Some (ri, column)
      | Text _ => None
      end
  | None => None
  end.

(** The text of the last input event of [events], run from [page], on an
    input that stands for the slot [(ri, col)], if there is one. *)
Fixpoint last_typed (events : list UserEvent) (page : Page) (ri : nat) (col : string)
  : option string :=
  match events with
  | [] => None
  | event :: rest =>
      match step event page with
      | None => None
      | Some page1 =>
          match last_typed rest page1 ri col with
          | Some typed => Some typed
          | None =>
              match event with
              | Typing i typed =>
                  if decide (input_slot page i = Some (ri, col)) then Some typed
                  else None
              | Tick _ => None
              end
          end
      end
  end.

(** A cell that holds no input standing for the column [col]. *)
Definition no_input_of (col : string) (cell : Cell) : Prop :=
  match td_content cell with
  | Input _ column _ => column ≠ col
  | Text _ => True
  end.

(** * Properties *)

(** ** Strings *)

Lemma append_nil (s : string) : "" +:+ s = s.
Proof. reflexivity. Qed.

Lemma append_cons (c : ascii) (a b : string) :
  String c a +:+ b = String c (a +:+ b).
Proof. reflexivity. Qed.

(** Pushes the characters of a literal prefix out of an append. *)
Ltac push_append := rewrite ?append_cons, ?append_nil.

Lemma string_app_assoc (a b c : string) : (a +:+ b) +:+ c = a +:+ (b +:+ c).
Proof.
  induction a as [|x a IH]; push_append; [done | by f_equal].
Qed.

Lemma trimStart_empty s : trimStart s = "" ↔ whitespace_only s = true.
Proof.
  induction s as [|c s IH]; simpl; [done |].
  destruct (is_white_space c); simpl; [done |].
  split; intros; discriminate.
Qed.

Lemma trimStart_head s c rest :
  trimStart s = String c rest → is_white_space c = false.
Proof.
  induction s as [|c' s IH]; simpl; [done |].
  destruct (is_white_space c') eqn:Hc; [done |].
  intros [= -> ->]. done.
Qed.

Lemma trimEnd_empty s : trimEnd s = "" ↔ whitespace_only s = true.
Proof.
  induction s as [|c s IH]; simpl; [done |].
  destruct (trimEnd s) eqn:Hs.
  - destruct (is_white_space c); simpl.
    + split; intros _; [by apply IH | done].
    + split; intros; discriminate.
  - split; [discriminate |].
    intros [_ H]%andb_prop. apply IH in H. discriminate.
Qed.

Example trim_example : trim (String "009"%char "  a b  ") = "a b".
Proof. reflexivity. Qed.

(** [trim] leaves nothing exactly of the texts that are white space only. *)
Lemma trim_empty s : trim s = "" ↔ whitespace_only s = true.
Proof.
  unfold trim. rewrite trimEnd_empty.
  destruct (trimStart s) as [|c rest] eqn:Hs.
  - split; [intros _; by apply trimStart_empty | done].
  - simpl. rewrite (trimStart_head _ _ _ Hs). simpl.
    split; [discriminate |].
    intros H%trimStart_empty. congruence.
Qed.

(** ** JSON.stringify tells rows apart *)

(** [JSON.stringify({a: "1", b: null, c: undefined})] *)
Example JSON_stringify_row :
  JSON_stringify [("a", Str "1"); ("b", Null); ("c", Undefined)]
  = "{" +:+ String dquote "a" +:+ String dquote ":" +:+ String dquote "1"
    +:+ String dquote "," +:+ String dquote "b" +:+ String dquote ":null}".
Proof. reflexivity. Qed.

(** A quote, a backslash, a tab and the control character U+0001. *)
Example JSON_quote_escapes :
  JSON_quote (String dquote (String backslash (String "009"%char (String "001"%char ""))))
  = String dquote (String backslash (String dquote "\\\t\u0001")) +:+ String dquote "".
Proof. reflexivity. Qed.

(** An escaped character can be read back from the front of any text. *)
Lemma unescape_escape_char c k :
  unescape_char (escape_char c +:+ k) = Some (c, k).
Proof.
  destruct c as [[] [] [] [] [] [] [] []]; reflexivity.
Qed.

Lemma unescape_quote k : unescape_char (String dquote k) = None.
Proof. reflexivity. Qed.

Lemma escape_inj s1 : ∀ s2 k1 k2,
  escape s1 +:+ String dquote k1 = escape s2 +:+ String dquote k2 →
  s1 = s2 ∧ k1 = k2.
Proof.
  induction s1 as [|c1 s1 IH]; intros [|c2 s2] k1 k2; simpl;
    rewrite ?string_app_assoc, ?append_nil; intros H.
  - by injection H.
  - apply (f_equal unescape_char) in H.
    rewrite unescape_quote, unescape_escape_char in H. discriminate.
  - apply (f_equal unescape_char) in H.
    rewrite unescape_quote, unescape_escape_char in H. discriminate.
  - apply (f_equal unescape_char) in H.
    rewrite !unescape_escape_char in H. injection H as -> H.
    destruct (IH _ _ _ H) as [-> ->]. done.
Qed.

(** A quoted string ends where its closing quote stands: what follows it
    cannot be taken for a part of it. *)
Lemma JSON_quote_inj s1 s2 k1 k2 :
  JSON_quote s1 +:+ k1 = JSON_quote s2 +:+ k2 → s1 = s2 ∧ k1 = k2.
Proof.
  unfold JSON_quote. rewrite !append_cons, !string_app_assoc, !append_cons, !append_nil.
  intros [= H]. by apply escape_inj.
Qed.

Lemma omap_JSON_member row :
  omap JSON_member row = member_text <$> serialized row.
Proof.
  unfold serialized.
  induction row as [|[k v] row IH]; [done |].
  rewrite filter_cons. destruct (decide _) as [H | H]; simpl in H.
  - destruct v; [done | simpl; f_equal; exact IH ..].
  - destruct v; [simpl; exact IH | exfalso; by apply H ..].
Qed.

Lemma serialized_defined row : Forall (λ p, p.2 ≠ Undefined) (serialized row).
Proof. apply Forall_forall. intros p [H _]%list_elem_of_filter. done. Qed.

Lemma member_text_inj p1 p2 k1 k2 :
  p1.2 ≠ Undefined → p2.2 ≠ Undefined →
  member_text p1 +:+ k1 = member_text p2 +:+ k2 → p1 = p2 ∧ k1 = k2.
Proof.
  destruct p1 as [n1 v1], p2 as [n2 v2]. unfold member_text. simpl.
  intros H1 H2. rewrite !string_app_assoc. intros [-> H]%JSON_quote_inj.
  rewrite !append_cons, !append_nil in H. injection H; clear H; intros H.
  destruct v1 as [| |s1], v2 as [| |s2]; try done; simpl in H.
  - by apply (inj (String.app "null")) in H as ->.
  - apply JSON_quote_inj in H as [-> ->]. done.
Qed.

Lemma joined_nil k : joined [] k = String "}" k.
Proof. reflexivity. Qed.

Lemma joined_cons m members k :
  joined (m :: members) k
  = m +:+ match members with
          | [] => String "}" k
          | _ :: _ => String "," (joined members k)
          end.
Proof.
  unfold joined. destruct members as [|m' members]; [done |].
  change (String.concat "," (m :: m' :: members))
    with (m +:+ "," +:+ String.concat "," (m' :: members)).
  rewrite !string_app_assoc. by push_append.
Qed.

Lemma joined_inj l1 : ∀ l2 k1 k2,
  Forall (λ p, p.2 ≠ Undefined) l1 → Forall (λ p, p.2 ≠ Undefined) l2 →
  joined (member_text <$> l1) k1 = joined (member_text <$> l2) k2 →
  l1 = l2 ∧ k1 = k2.
Proof.
  induction l1 as [|p1 l1 IH]; intros [|p2 l2] k1 k2 H1 H2; simpl;
    rewrite ?joined_cons, ?joined_nil.
  - by intros [= ->].
  - unfold member_text, JSON_quote, dquote. push_append. discriminate.
  - unfold member_text, JSON_quote, dquote. push_append. discriminate.
  - apply Forall_cons in H1 as [Hp1 H1]. apply Forall_cons in H2 as [Hp2 H2].
    intros [-> H]%member_text_inj; [|done..].
    destruct l1 as [|q1 l1], l2 as [|q2 l2]; simpl in H; try discriminate.
    + by injection H as ->.
    + injection H; clear H; intros H.
      destruct (IH (q2 :: l2) k1 k2 H1 H2 H) as [-> ->]. done.
Qed.

(** Two rows have the same key exactly when they list the same defined
    properties, names and values, in the same order. *)
Lemma JSON_stringify_inj r1 r2 :
  JSON_stringify r1 = JSON_stringify r2 ↔ serialized r1 = serialized r2.
Proof.
  assert (∀ r, JSON_stringify r = String "{" (joined (member_text <$> serialized r) ""))
    as Hkey.
  { intros r. unfold JSON_stringify, joined. by rewrite omap_JSON_member. }
  rewrite !Hkey. split; [|by intros ->].
  intros [= H]. eapply joined_inj in H as [H _]; [done | apply serialized_defined..].
Qed.

(** ** The blank-row filter *)

Lemma has_content_not_blank value : has_content value ↔ ¬ blank value.
Proof.
  unfold has_content, blank. destruct value as [| |s]; simpl.
  - split; [intros (_ & H & _); done | intros H; exfalso; apply H; auto].
  - split; [intros (H & _); done | intros H; exfalso; apply H; auto].
  - rewrite trim_empty. split.
    + intros (_ & _ & H) [? | [? | (s' & [= <-] & Hs)]]; done.
    + intros H. repeat split; try done. intros Hs. apply H. eauto.
Qed.

Lemma not_has_content_blank value : ¬ has_content value → blank value.
Proof.
  unfold has_content, blank. destruct value as [| |s]; [auto..|].
  destruct (whitespace_only s) eqn:Hs; [eauto |].
  intros H. exfalso. apply H. repeat split; try done.
  simpl. rewrite trim_empty. congruence.
Qed.

Lemma kept_not_all_blank (row : Row) :
  Exists has_content (Object_values row) ↔ ¬ Forall blank (Object_values row).
Proof.
  induction (Object_values row) as [|value values IH].
  - split; [by intros ?%Exists_nil | intros H; exfalso; apply H; constructor].
  - rewrite Exists_cons, Forall_cons, IH.
    destruct (decide (has_content value)) as [Hc | Hc].
    + split; [|auto]. intros _ [Hb _]. by apply has_content_not_blank in Hc.
    + split; [intros [? | H] [_ ?]; done |].
      intros H. right. intros Hall. apply H. split; [|done].
      by apply not_has_content_blank.
Qed.

(** ** The duplicate filter *)

Lemma keys_of_seen seen earlier row :
  keys_of seen earlier →
  JSON_stringify row ∈ seen ↔ Exists (identical row) earlier.
Proof.
  intros Hseen. rewrite (Hseen _), Exists_exists. unfold identical.
  split; intros (r & Hr & Hkey); exists r; split; try done.
  - symmetry. by apply JSON_stringify_inj.
  - symmetry. by apply JSON_stringify_inj.
Qed.

Lemma foldl_remember rows : ∀ seen kept earlier,
  keys_of seen earlier →
  (foldl remember (seen, kept) rows).2 = kept ++ first_occurrences earlier rows.
Proof.
  induction rows as [|row rows IH]; intros seen kept earlier Hseen; simpl.
  - by rewrite app_nil_r.
  - unfold remember at 2. simpl.
    pose proof (keys_of_seen _ _ row Hseen) as Hrow.
    destruct (decide (JSON_stringify row ∈ seen)) as [Hin | Hin];
      destruct (decide (Exists (identical row) earlier)) as [Hex | Hex];
      try tauto.
    + apply IH. intros key. rewrite (Hseen key). split.
      * intros (r & Hr & Hkey). exists r. split; [|done].
        apply elem_of_app. by left.
      * intros (r & [Hr | ->%list_elem_of_singleton]%elem_of_app & <-); [eauto |].
        by apply Hseen.
    + rewrite (IH _ _ (earlier ++ [row])).
      * by rewrite <- app_assoc.
      * intros key. rewrite elem_of_union, elem_of_singleton, (Hseen key). split.
        -- intros [-> | (r & Hr & Hkey)].
           ++ exists row. split; [|done]. apply elem_of_app. right. by left.
           ++ exists r. split; [|done]. apply elem_of_app. by left.
        -- intros (r & [Hr | ->%list_elem_of_singleton]%elem_of_app & <-); eauto.
Qed.

Lemma removeDuplicates_first_occurrences allData :
  removeDuplicates allData = first_occurrences [] allData.
Proof.
  unfold removeDuplicates. rewrite (foldl_remember _ _ _ []); [done |].
  intros key. split; [set_solver |]. intros (r & Hr & _). by apply elem_of_nil in Hr.
Qed.

Lemma first_occurrences_new earlier row rest :
  ¬ Exists (identical row) earlier →
  first_occurrences earlier (row :: rest)
  = row :: first_occurrences (earlier ++ [row]) rest.
Proof. intros H. simpl. by rewrite decide_False. Qed.

Lemma first_occurrences_dup earlier row rest :
  Exists (identical row) earlier →
  first_occurrences earlier (row :: rest)
  = first_occurrences (earlier ++ [row]) rest.
Proof. intros H. simpl. by rewrite decide_True. Qed.

Lemma first_occurrences_app pre : ∀ earlier post,
  first_occurrences earlier (pre ++ post)
  = first_occurrences earlier pre ++ first_occurrences (earlier ++ pre) post.
Proof.
  induction pre as [|row pre IH]; intros earlier post; simpl.
  - by rewrite app_nil_r.
  - rewrite IH, <- app_assoc. simpl. by destruct (decide _).
Qed.

Lemma first_occurrences_subseteq rows : ∀ earlier,
  first_occurrences earlier rows ⊆ rows.
Proof.
  induction rows as [|row rows IH]; intros earlier; simpl; [done |].
  destruct (decide _); [|by apply list_subseteq_skip].
  by apply list_subseteq_cons.
Qed.

(** ** The handler *)

Section HandlerFacts.

Context (M : Modules).

Lemma forEach_file_throws fileArray : ∀ allData file,
  failing_file M fileArray = Some file →
  ∃ message, forEach_file M fileArray allData = Throw message.
Proof.
  induction fileArray as [|f rest IH]; intros allData file; simpl; [done |].
  destruct (read_rows M f) as [rows | message]; simpl; [apply IH | eauto].
Qed.

Lemma forEach_file_reads fileArray : ∀ allData,
  failing_file M fileArray = None →
  ∃ rows, forEach_file M fileArray allData = Ok (allData ++ rows).
Proof.
  induction fileArray as [|f rest IH]; intros allData; simpl.
  - exists []. by rewrite app_nil_r.
  - destruct (read_rows M f) as [rows | message]; simpl; [|done].
    intros H. destruct (IH (allData ++ rows) H) as [more ->].
    exists (rows ++ more). by rewrite app_assoc.
Qed.

(** With every file read, the rows are the files' rows in upload order. *)
Lemma forEach_file_concat fileArray : ∀ tables allData,
  Forall2 (λ file rows, read_rows M file = Ok rows) fileArray tables →
  forEach_file M fileArray allData = Ok (allData ++ mjoin tables).
Proof.
  induction fileArray as [|f rest IH]; intros tables allData H.
  - apply Forall2_nil_inv_l in H as ->. simpl. by rewrite app_nil_r.
  - apply Forall2_cons_inv_l in H as (rows & tables' & Hf & H & ->).
    simpl. rewrite Hf. simpl. rewrite (IH _ _ H). by rewrite app_assoc.
Qed.

Lemma handler_post event field :
  httpMethod event = "POST" → form_parse M event = Ok field →
  handler M event
  = match select_files field with
    | [] => no_files_uploaded
    | _ :: _ => match process M (select_files field) with
                | Ok response => response
                | Throw _ => server_error
                end
    end.
Proof.
  intros Hpost Hform. unfold handler. rewrite Hform.
  destruct (decide (httpMethod event ≠ "POST")); [done |].
  by destruct (select_files field).
Qed.

Lemma process_status fileArray response :
  process M fileArray = Ok response → statusCode response = 200.
Proof.
  unfold process.
  destruct (uniqueData M fileArray) as [rows |]; simpl; [|done].
  destruct (Parser_parse M rows); simpl; [|done]. by intros [= <-].
Qed.

End HandlerFacts.

(** The first example of section 8 of the specification: the row of the
    first file is dropped from the second, and the text is [a,b], [1,2],
    [3,4] on three lines. *)
Example merge_two_files :
  handler (Samples.modules Samples.two_files ""
             [("a.csv", [Samples.r1]); ("b.csv", [Samples.r1; Samples.r2])])
    Samples.post
  = {| statusCode := 200; headers := csv_headers;
       body := "a,b" +:+ Json2csv.line_feed +:+ "1,2" +:+ Json2csv.line_feed +:+ "3,4" |}.
Proof. vm_compute. reflexivity. Qed.

(** The second example of section 8: after the edit of Bob's age the rows
    handed to [Papa.unparse] hold [26] in that cell. *)
Example edit_then_download Papa_unparse :
  (downloadButton_click Papa_unparse (input_event 3 "26" editing_page)).2
  = [Download "modified.csv"
       (Papa_unparse [ [("name", Str "Alice"); ("age", Str "30")];
                       [("name", Str "Bob"); ("age", Str "26")] ])].
Proof. reflexivity. Qed.

(** ** C1: the duplicate filter *)

(** C1 as stated fails: a record whose (column, value) pairs are those of an
    earlier record, listed in another column order, has another key and is
    not dropped.  Merging a file with the header [a,b] and a file with the
    header [b,a] that hold the same record keeps the record twice. *)
Lemma swapped_columns_not_dropped :
  same_pair_set Samples.r1 Samples.r1_swapped ∧
  removeDuplicates [Samples.r1; Samples.r1_swapped]
  = [Samples.r1; Samples.r1_swapped] ∧
  uniqueData
    (Samples.modules Samples.two_files ""
       [("a.csv", [Samples.r1]); ("b.csv", [Samples.r1_swapped])])
    (select_files Samples.two_files)
  = Ok [Samples.r1; Samples.r1_swapped].
Proof.
  split; [|split; vm_compute; reflexivity].
  intros p. unfold Samples.r1, Samples.r1_swapped.
  rewrite !elem_of_cons, !elem_of_nil. tauto.
Qed.

Lemma serialized_defined_row (row : Row) :
  Forall (λ p, p.2 ≠ Undefined) row → serialized row = row.
Proof.
  unfold serialized. induction 1 as [|p row Hp _ IH]; [done |].
  by rewrite filter_cons_True, IH.
Qed.

Lemma identical_defined_rows r1 r2 :
  Forall (λ p, p.2 ≠ Undefined) r1 → Forall (λ p, p.2 ≠ Undefined) r2 →
  identical r1 r2 ↔ r1 = r2.
Proof.
  intros H1 H2. unfold identical. by rewrite !serialized_defined_row.
Qed.

(** With every file read, the rows that reach the serializer are the first
    occurrences among the non-blank rows of the files, in upload order. *)
Lemma uniqueData_of_tables M fileArray tables :
  Forall2 (λ file rows, read_rows M file = Ok rows) fileArray tables →
  uniqueData M fileArray
  = Ok (first_occurrences [] (removeEmptyRows (mjoin tables))).
Proof.
  intros Hread. unfold uniqueData.
  rewrite (forEach_file_concat M _ _ [] Hread). simpl.
  by rewrite removeDuplicates_first_occurrences.
Qed.

(** C1, amended: the duplicate filter keeps the first occurrences.  A record
    is dropped exactly when an earlier record of the blank-filtered sequence
    lists the same (column, value) pairs in the same order (cells holding
    [undefined] left out; for rows without such cells, when it is the same
    sequence of pairs); a kept record stays at its position.  Files
    [A = \[r1; r2\]] and [B = \[r2; r3\]], with [r1], [r2] and [r3] not
    blank and pairwise different, merge to [\[r1; r2; r3\]]. *)
Theorem duplicate_filter_first_occurrences :
  (∀ allData, removeDuplicates allData = first_occurrences [] allData) ∧
  (∀ pre row post,
     removeDuplicates (pre ++ row :: post)
     = removeDuplicates pre
       ++ (if decide (Exists (identical row) pre) then [] else [row])
       ++ first_occurrences (pre ++ [row]) post) ∧
  (∀ r1 r2,
     Forall (λ p, p.2 ≠ Undefined) r1 → Forall (λ p, p.2 ≠ Undefined) r2 →
     identical r1 r2 ↔ r1 = r2) ∧
  (∀ M A B (r1 r2 r3 : Row),
     read_rows M A = Ok [r1; r2] → read_rows M B = Ok [r2; r3] →
     ¬ Forall blank (Object_values r1) →
     ¬ Forall blank (Object_values r2) →
     ¬ Forall blank (Object_values r3) →
     ¬ identical r2 r1 → ¬ identical r3 r1 → ¬ identical r3 r2 →
     uniqueData M [A; B] = Ok [r1; r2; r3]).
Proof.
  split; [apply removeDuplicates_first_occurrences |].
  split; [|split; [apply identical_defined_rows |]].
  - intros pre row post.
    rewrite !removeDuplicates_first_occurrences, first_occurrences_app. simpl.
    by destruct (decide _).
  - intros M A B r1 r2 r3 HA HB Hr1 Hr2 Hr3 H21 H31 H32.
    rewrite (uniqueData_of_tables M [A; B] [[r1; r2]; [r2; r3]])
      by (repeat constructor; done).
    f_equal. simpl. unfold removeEmptyRows.
    rewrite !filter_cons_True, filter_nil by (by apply kept_not_all_blank).
    rewrite first_occurrences_new by (by intros ?%Exists_nil).
    rewrite first_occurrences_new
      by (simpl; rewrite Exists_cons, Exists_nil; tauto).
    rewrite first_occurrences_dup
      by (simpl; rewrite !Exists_cons; right; left; done).
    rewrite first_occurrences_new
      by (simpl; rewrite !Exists_cons, Exists_nil; tauto).
    done.
Qed.

Lemma duplicate_filter_first_occurrences_witness :
  uniqueData (Samples.modules Samples.two_files "" Samples.two_tables)
    [Samples.upload "a.csv"; Samples.upload "b.csv"]
  = Ok [Samples.r1; Samples.r2; Samples.r3].
Proof.
  destruct duplicate_filter_first_occurrences as (_ & _ & _ & Hmerge).
  apply (Hmerge (Samples.modules Samples.two_files "" Samples.two_tables)
           (Samples.upload "a.csv") (Samples.upload "b.csv"));
    try reflexivity;
    try (intros [_ [[? | [? | (s & [= <-] & ?)]] _]%Forall_cons]%Forall_cons;
         discriminate);
    intros H; discriminate H.
Defined.

(** ** C6: the blank-row filter *)

Lemma removeDuplicates_subseteq allData : removeDuplicates allData ⊆ allData.
Proof.
  rewrite removeDuplicates_first_occurrences. apply first_occurrences_subseteq.
Qed.

(** C6: the blank-row filter drops a row exactly when every cell of it is
    [null], [undefined] or a text that is empty or white space only.  Such a
    row leaves nothing behind even as the only row; any other row is kept,
    in place; and no blank row reaches the serializer. *)
Theorem blank_rows_removed :
  (∀ row : Row, Forall blank (Object_values row) → removeEmptyRows [row] = []) ∧
  (∀ row : Row, ¬ Forall blank (Object_values row) → removeEmptyRows [row] = [row]) ∧
  (∀ l1 l2, removeEmptyRows (l1 ++ l2) = removeEmptyRows l1 ++ removeEmptyRows l2) ∧
  (∀ allData (row : Row),
     row ∈ removeEmptyRows allData
     ↔ row ∈ allData ∧ ¬ Forall blank (Object_values row)) ∧
  (∀ M fileArray rows (row : Row),
     uniqueData M fileArray = Ok rows → row ∈ rows →
     ¬ Forall blank (Object_values row)).
Proof.
  assert (∀ allData (row : Row),
    row ∈ removeEmptyRows allData
    ↔ row ∈ allData ∧ ¬ Forall blank (Object_values row)) as Hin.
  { intros allData row. unfold removeEmptyRows.
    rewrite list_elem_of_filter, kept_not_all_blank. tauto. }
  split; [|split; [|split; [|split; [exact Hin |]]]].
  - intros row Hrow. unfold removeEmptyRows.
    rewrite filter_cons_False; [done |]. rewrite kept_not_all_blank. auto.
  - intros row Hrow. unfold removeEmptyRows.
    rewrite filter_cons_True; [done |]. by rewrite kept_not_all_blank.
  - intros l1 l2. apply filter_app.
  - intros M fileArray rows row. unfold uniqueData.
    destruct (forEach_file M fileArray []) as [allData |]; simpl; [|done].
    intros [= <-] Hrow%removeDuplicates_subseteq. by apply Hin in Hrow as [_ ?].
Qed.

Lemma blank_rows_removed_witness :
  removeEmptyRows [Samples.blank_row] = [] ∧
  removeEmptyRows [Samples.r1] = [Samples.r1].
Proof.
  destruct blank_rows_removed as (Hblank & Hkept & _).
  split.
  - apply Hblank.
    apply Forall_cons; split; [|apply Forall_cons; split; [|constructor]];
      right; right; eexists; (split; reflexivity).
  - apply Hkept.
    intros [[? | [? | (s & [= <-] & ?)]] _]%Forall_cons; discriminate.
Defined.

(** ** C2: too few files *)

(** C2 as stated fails: an upload of exactly one file is not rejected, its
    rows are filtered and serialized and the answer is 200. *)
Lemma one_file_is_merged :
  length (select_files (OneFile (Samples.upload "a.csv"))) < 2 ∧
  handler (Samples.modules (OneFile (Samples.upload "a.csv")) "" Samples.two_tables)
    Samples.post
  = {| statusCode := 200; headers := csv_headers;
       body := Json2csv.csv_text [["a"; "b"]; ["1"; "2"]; ["3"; "4"]] |}.
Proof. split; [simpl; lia | vm_compute; reflexivity]. Qed.

(** The one way to the answer 400, whatever the modules do. *)
Lemma status_400_cause M event :
  statusCode (handler M event) = 400 →
  httpMethod event = "POST"
  ∧ (∃ field, form_parse M event = Ok field ∧ select_files field = [])
  ∧ handler M event = no_files_uploaded.
Proof.
  unfold handler.
  destruct (decide (httpMethod event ≠ "POST")) as [|Hpost%dec_stable]; [done |].
  destruct (form_parse M event) as [field | message]; [|done]. simpl.
  destruct (decide (length (select_files field) = 0)) as [Hlen | Hlen].
  - intros _. split; [done |]. split; [|done].
    exists field. split; [done |]. by apply nil_length_inv.
  - destruct (process M (select_files field)) as [response |] eqn:Hp; [|done].
    apply process_status in Hp. rewrite Hp. done.
Qed.

(** C2, amended: the handler answers 400 exactly when the request is a POST
    whose form holds no file, and then with [No files uploaded] and no CSV;
    one uploaded file is processed like several.  The minimum of two files
    is the front end's: with fewer chosen it shows an alert and sends no
    request. *)
Theorem status_400_iff_no_files M event :
  (statusCode (handler M event) = 400
   ↔ httpMethod event = "POST"
     ∧ ∃ field, form_parse M event = Ok field ∧ select_files field = []) ∧
  (statusCode (handler M event) = 400 → handler M event = no_files_uploaded) ∧
  (∀ fetch files,
     length files < 2 →
     combineButton_click fetch (Some files)
     = [Alert "Please select at least two CSV files to combine."]).
Proof.
  split; [|split].
  - split; [intros H; by destruct (status_400_cause M event H) as (? & ? & _) |].
    intros (Hpost & field & Hform & Hnil).
    rewrite (handler_post M event field Hpost Hform), Hnil. done.
  - intros H. by destruct (status_400_cause M event H) as (_ & _ & ?).
  - intros fetch files Hlen. unfold combineButton_click.
    by rewrite decide_True.
Qed.

Lemma status_400_iff_no_files_witness :
  handler (Samples.modules NoField "" []) Samples.post = no_files_uploaded ∧
  combineButton_click (λ _, Throw "offline") (Some ["a.csv"])
  = [Alert "Please select at least two CSV files to combine."].
Proof.
  destruct (status_400_iff_no_files (Samples.modules NoField "" []) Samples.post)
    as (_ & Hanswer & Hpage).
  split; [apply Hanswer; reflexivity | apply Hpage; simpl; lia].
Defined.

(** ** C4: a file that cannot be read *)

(** C4 as stated fails: the answer to a failed read does not tell which
    file failed.  Whether the first or the second file of an upload is
    unreadable, the response is the same. *)
Lemma failing_file_not_reported :
  failing_file (Samples.modules Samples.two_files "a.csv" Samples.two_tables)
    (select_files Samples.two_files) = Some (Samples.upload "a.csv") ∧
  failing_file (Samples.modules Samples.two_files "b.csv" Samples.two_tables)
    (select_files Samples.two_files) = Some (Samples.upload "b.csv") ∧
  Samples.upload "a.csv" ≠ Samples.upload "b.csv" ∧
  handler (Samples.modules Samples.two_files "a.csv" Samples.two_tables) Samples.post
  = handler (Samples.modules Samples.two_files "b.csv" Samples.two_tables) Samples.post.
Proof.
  split; [vm_compute; reflexivity |].
  split; [vm_compute; reflexivity |].
  split; [discriminate | vm_compute; reflexivity].
Qed.

(** C4, amended: when reading or parsing one of the uploaded files throws,
    the handler gives up the whole merge.  Its answer is the fixed response
    500 [Server error processing CSV files], whichever file failed: it holds
    no row of the other files and does not name the file. *)
Theorem failed_file_aborts_merge M event field file :
  httpMethod event = "POST" →
  form_parse M event = Ok field →
  failing_file M (select_files field) = Some file →
  handler M event = server_error.
Proof.
  intros Hpost Hform Hfail. rewrite (handler_post M event field Hpost Hform).
  destruct (select_files field) as [|f rest] eqn:Hfiles; [done |].
  unfold process, uniqueData.
  destruct (forEach_file_throws M _ [] _ Hfail) as [message ->]. done.
Qed.

Lemma failed_file_aborts_merge_witness :
  httpMethod Samples.post = "POST" ∧
  failing_file (Samples.modules Samples.two_files "b.csv" Samples.two_tables)
    (select_files Samples.two_files) = Some (Samples.upload "b.csv") ∧
  handler (Samples.modules Samples.two_files "b.csv" Samples.two_tables) Samples.post
  = server_error.
Proof.
  split; [reflexivity |]. split; [vm_compute; reflexivity |].
  apply (failed_file_aborts_merge
           (Samples.modules Samples.two_files "b.csv" Samples.two_tables)
           Samples.post Samples.two_files (Samples.upload "b.csv"));
    [reflexivity | reflexivity | vm_compute; reflexivity].
Defined.

(** ** C3 and C9: the serializer *)

Lemma get_prop_missing (row : Row) column :
  has_prop row column = false → get_prop row column = Undefined.
Proof.
  induction row as [|[k v] row IH]; simpl; [done |].
  destruct (decide (k = column)); [done | exact IH].
Qed.

Lemma line_lookup columns (row : Row) j column :
  columns !! j = Some column →
  Json2csv.line columns row !! j
  = Some (if has_prop row column then Json2csv.cell_text (get_prop row column) else "").
Proof.
  intros Hj. unfold Json2csv.line. rewrite list_lookup_fmap, Hj. simpl.
  destruct (has_prop row column) eqn:Hhas; [done |].
  by rewrite get_prop_missing.
Qed.

(** What the handler answers when every file is read and [rows] survive the
    two filters. *)
Lemma handler_serializes M event field allData :
  httpMethod event = "POST" →
  form_parse M event = Ok field →
  select_files field ≠ [] →
  forEach_file M (select_files field) [] = Ok allData →
  handler M event
  = match Parser_parse M (removeDuplicates (removeEmptyRows allData)) with
    | Ok csv => {| statusCode := 200; headers := csv_headers; body := csv |}
    | Throw _ => server_error
    end.
Proof.
  intros Hpost Hform Hfiles Hread.
  rewrite (handler_post M event field Hpost Hform).
  destruct (select_files field) as [|f rest]; [done |].
  unfold process, uniqueData. rewrite Hread. simpl.
  by destruct (Parser_parse M _).
Qed.



(** C9: the CSV of a merge has the keys of the first surviving record as
    its header line and one line per surviving record after it.  Every line
    has one cell per header column: the record's value in that column, or
    an empty cell when the record has no such column.  A column that only
    later records have is in no line. *)
Theorem header_from_first_survivor M event field allData first rest :
  Parser_parse M = Json2csv.parse →
  httpMethod event = "POST" →
  form_parse M event = Ok field →
  select_files field ≠ [] →
  forEach_file M (select_files field) [] = Ok allData →
  removeDuplicates (removeEmptyRows allData) = first :: rest →
  ∃ lines,
    handler M event
    = {| statusCode := 200; headers := csv_headers;
         body := Json2csv.csv_text (Object_keys first :: lines) |} ∧
    length lines = S (length rest) ∧
    ∀ i (row : Row), (first :: rest) !! i = Some row →
      ∃ cells,
        lines !! i = Some cells ∧
        length cells = length (Object_keys first) ∧
        ∀ j column, Object_keys first !! j = Some column →
          cells !! j
          = Some (if has_prop row column
                  then Json2csv.cell_text (get_prop row column) else "").
Proof.
  intros Hparser Hpost Hform Hfiles Hread Hrows.
  exists (Json2csv.line (Object_keys first) <$> first :: rest).
  split; [|split].
  - rewrite (handler_serializes M event field allData) by done.
    rewrite Hparser, Hrows. done.
  - by rewrite length_fmap.
  - intros i row Hi. exists (Json2csv.line (Object_keys first) row).
    split; [by rewrite list_lookup_fmap, Hi |].
    split; [unfold Json2csv.line; by rewrite length_fmap |].
    intros j column Hj. by apply line_lookup.
Qed.

Lemma header_from_first_survivor_witness :
  removeDuplicates (removeEmptyRows
    [Samples.r1; [("b", Str "4"); ("c", Str "5")]]) 
  = [Samples.r1; [("b", Str "4"); ("c", Str "5")]] ∧
  ∃ lines,
    handler (Samples.modules Samples.two_files ""
               [("a.csv", [Samples.r1]); ("b.csv", [[("b", Str "4"); ("c", Str "5")]])])
      Samples.post
    = {| statusCode := 200; headers := csv_headers;
         body := Json2csv.csv_text (["a"; "b"] :: lines) |} ∧
    lines !! 1 = Some [""; "4"].
Proof.
  split; [vm_compute; reflexivity |].
  destruct (header_from_first_survivor
              (Samples.modules Samples.two_files ""
                 [("a.csv", [Samples.r1]); ("b.csv", [[("b", Str "4"); ("c", Str "5")]])])
              Samples.post Samples.two_files
              [Samples.r1; [("b", Str "4"); ("c", Str "5")]]
              Samples.r1 [[("b", Str "4"); ("c", Str "5")]])
    as (lines & Hresponse & Hlength & Hlines);
    [reflexivity | reflexivity | reflexivity | discriminate
    | vm_compute; reflexivity | vm_compute; reflexivity |].
  exists lines. split; [exact Hresponse |].
  destruct (Hlines 1 [("b", Str "4"); ("c", Str "5")] eq_refl)
    as (cells & Hcells & Hlen & Hcell).
  rewrite Hcells. f_equal.
  pose proof (Hcell 0 "a" eq_refl) as H0. pose proof (Hcell 1 "b" eq_refl) as H1.
  destruct cells as [|c0 [|c1 [|c2 cells]]]; try discriminate.
  simpl in H0, H1. by injection H0 as ->; injection H1 as ->.
Defined.

(** ** C7: write-through edits *)

Lemma get_set_prop (row : Row) k v : get_prop (set_prop row k v) k = v.
Proof.
  induction row as [|[k' v'] row IH]; simpl.
  - by rewrite decide_True.
  - destruct (decide (k' = k)) as [-> | Hne]; simpl.
    + by rewrite decide_True.
    + by rewrite decide_False.
Qed.

Lemma get_set_prop_other (row : Row) k k' v :
  k ≠ k' → get_prop (set_prop row k v) k' = get_prop row k'.
Proof.
  intros Hne. induction row as [|[k0 v0] row IH]; simpl.
  - by rewrite decide_False.
  - destruct (decide (k0 = k)) as [-> | Hk]; simpl.
    + by rewrite !decide_False.
    + destruct (decide (k0 = k')); done.
Qed.

Lemma input_listener_writes rows ri column value :
  ri < length rows →
  ∃ rows',
    input_listener ri column value rows = Ok rows' ∧
    length rows' = length rows ∧
    ∀ r c, read_cell rows' r c
           = if decide (ri = r ∧ column = c) then Ok (Str value)
             else read_cell rows r c.
Proof.
  intros Hri. destruct (lookup_lt_is_Some_2 rows ri Hri) as [row Hrow].
  unfold input_listener. rewrite Hrow. eexists. split; [done |].
  split; [by rewrite length_insert |].
  intros r c. unfold read_cell. destruct (decide (ri = r)) as [<- | Hr].
  - rewrite list_lookup_insert_eq by done.
    destruct (decide (column = c)) as [<- | Hc].
    + rewrite decide_True by done. by rewrite get_set_prop.
    + rewrite decide_False by tauto. by rewrite get_set_prop_other, Hrow.
  - rewrite list_lookup_insert_ne by done. by rewrite decide_False by tauto.
Qed.

(** The listener alone: after any sequence of its calls every cell reads as
    the last text written to its slot (as before the calls when none was),
    whatever was written to the other slots in between. *)
Lemma apply_edits_last_written rows edits :
  Forall (λ edit, edit_row edit < length rows) edits →
  ∃ rows',
    apply_edits edits rows = Ok rows' ∧
    length rows' = length rows ∧
    ∀ ri col,
      read_cell rows' ri col
      = match last_written edits ri col with
        | Some value => Ok (Str value)
        | None => read_cell rows ri col
        end.
Proof.
  revert rows. induction edits as [|edit edits IH]; intros rows Hedits.
  - exists rows. done.
  - apply Forall_cons in Hedits as [Hedit Hedits]. simpl.
    destruct (input_listener_writes rows _ (edit_column edit) (edit_value edit) Hedit)
      as (rows1 & -> & Hlen1 & Hread1). simpl.
    destruct (IH rows1) as (rows' & -> & Hlen & Hread).
    { by rewrite Hlen1. }
    exists rows'. split; [done |]. split; [congruence |].
    intros ri col. rewrite Hread, Hread1.
    destruct (last_written edits ri col); [done |]. by destruct (decide _).
Qed.

(** ** C10: download without rows *)

(** C10: with [csvData] absent or empty the download handler shows the
    alert [No CSV loaded to download.], offers no file and leaves the page
    as it is. *)
Theorem download_without_rows Papa_unparse page :
  csvData page = None ∨ csvData page = Some [] →
  downloadButton_click Papa_unparse page
  = (page, [Alert "No CSV loaded to download."]).
Proof.
  unfold downloadButton_click. by intros [-> | ->].
Qed.

Lemma download_without_rows_witness :
  csvData initial = Some [] ∧
  downloadButton_click (λ _, "") initial
  = (initial, [Alert "No CSV loaded to download."]).
Proof.
  split; [reflexivity |].
  apply (download_without_rows (λ _, "") initial). right. reflexivity.
Defined.

(** ** C8: toggling a column *)

Lemma strip_prefix_app pre s : strip_prefix pre (pre +:+ s) = Some s.
Proof.
  induction pre as [|c pre IH]; [by destruct s |].
  rewrite append_cons. simpl. by rewrite decide_True.
Qed.

Lemma read_string_plain col k :
  plain_name col = true →
  read_string (col +:+ String apostrophe k) = Some (col, k).
Proof.
  induction col as [|c col IH]; simpl.
  - done.
  - intros [Hc Hcol]%andb_prop.
    rewrite decide_False by (intros ->; discriminate).
    rewrite Hc, (IH Hcol). done.
Qed.

(** For a plain name the selector selects the cells of that column. *)
Lemma querySelectorAll_plain col :
  plain_name col = true → querySelectorAll (column_selector col) = Some [col].
Proof.
  intros Hcol. unfold querySelectorAll.
  assert (∃ n, String.length (column_selector col) = S n) as [n ->].
  { unfold column_selector, selector_prefix. eexists. reflexivity. }
  unfold column_selector. simpl.
  rewrite append_nil, (read_string_plain col "]" Hcol). done.
Qed.

Lemma toggle_cells_length rows selected col isChecked tds :
  length (toggle_cells rows selected col isChecked tds) = length tds.
Proof.
  induction tds as [|cell tds IH]; simpl; [done |].
  destruct (decide _); simpl; [|by rewrite IH].
  destruct (rows ≫= _); simpl; [by rewrite IH | done].
Qed.

Lemma toggle_cells_other rows selected col isChecked tds : ∀ i cell,
  tds !! i = Some cell → td_column cell ∉ selected →
  toggle_cells rows selected col isChecked tds !! i = Some cell.
Proof.
  induction tds as [|td tds IH]; intros i cell Hi Hcell; [done |]. simpl.
  destruct i as [|i]; simpl in Hi.
  - injection Hi as ->. rewrite decide_False by done. done.
  - destruct (decide _); simpl; [|by apply IH].
    destruct (rows ≫= _); simpl; [by apply IH | done].
Qed.

(** The listener never assigns to [csvData] or to a checkbox. *)
Lemma toggleModification_keeps_rows checkbox page page' :
  toggleModification checkbox page = Some page' →
  csvData page' = csvData page ∧ checkboxes page' = checkboxes page.
Proof.
  unfold toggleModification.
  destruct (querySelectorAll _); simpl; [|done]. by intros [= <-].
Qed.

(** Ticking or unticking the box of a column with a plain name leaves the
    rows, the other boxes and the cells of the other columns as they are. *)
Lemma plain_column_toggle_frame page i checkbox :
  checkboxes page !! i = Some checkbox →
  plain_name (cb_column checkbox) = true →
  ∃ page',
    checkbox_change i page = Some page' ∧
    csvData page' = csvData page ∧
    (∀ j, j ≠ i → checkboxes page' !! j = checkboxes page !! j) ∧
    (∀ j cell, cells page !! j = Some cell →
               td_column cell ≠ cb_column checkbox →
               cells page' !! j = Some cell).
Proof.
  intros Hbox Hplain. unfold checkbox_change, toggleModification. rewrite Hbox.
  simpl. rewrite (querySelectorAll_plain _ Hplain). simpl.
  eexists. split; [done |]. simpl. split; [done |]. split.
  - intros j Hj. by rewrite list_lookup_insert_ne.
  - intros j cell Hcell Hcol. apply toggle_cells_other; [done |].
    by intros ?%list_elem_of_singleton.
Qed.

(** C8 fails on the code for such a header: ticking the box of the first
    column leaves the rows as they are, but it replaces the cells of the
    columns [a] and [b], which showed [1] and [2], by inputs that show the
    first column's value, and leaves the first column's own cell as text. *)
Theorem toggle_rewrites_other_columns :
  column_selector crafted_name
  = "td[data-column=" +:+ String apostrophe "a" +:+ String apostrophe "],td[data-column="
    +:+ String apostrophe "b" +:+ String apostrophe "]" ∧
  cells crafted_page
  = [ {| td_column := crafted_name; td_rowIndex := 0; td_content := Text (Str "w") |};
      {| td_column := "a"; td_rowIndex := 0; td_content := Text (Str "1") |};
      {| td_column := "b"; td_rowIndex := 0; td_content := Text (Str "2") |} ] ∧
  ∃ page',
    checkbox_change 0 crafted_page = Some page' ∧
    csvData page' = csvData crafted_page ∧
    cells page'
    = [ {| td_column := crafted_name; td_rowIndex := 0; td_content := Text (Str "w") |};
        {| td_column := "a"; td_rowIndex := 0;
           td_content := Input (Str "w") crafted_name 0 |};
        {| td_column := "b"; td_rowIndex := 0;
           td_content := Input (Str "w") crafted_name 0 |} ].
Proof.
  split; [vm_compute; reflexivity |]. split; [vm_compute; reflexivity |].
  eexists. split; [vm_compute; reflexivity |]. split; vm_compute; reflexivity.
Qed.

(** ** The table and the rows it shows *)

Lemma buildTable_slots_in_range page rows :
  csvData page = Some rows → slots_in_range (buildTable page).
Proof.
  intros Hrows. unfold buildTable. rewrite Hrows.
  destruct rows as [|first rest].
  - exists []. split; [done | constructor].
  - exists (first :: rest). split; [done |]. cbn [cells].
    apply Forall_join, Forall_forall. intros tds (i & row & -> & Hi)%elem_of_lookup_imap.
    apply Forall_forall. intros cell (col & -> & _)%list_elem_of_fmap.
    split; simpl; [|done]. by apply lookup_lt_Some in Hi.
Qed.

Lemma in_range_length rows rows' cell :
  length rows' = length rows → in_range rows cell → in_range rows' cell.
Proof. unfold in_range. intros ->. done. Qed.

Lemma toggle_cells_in_range rows selected col isChecked tds :
  Forall (in_range rows) tds →
  Forall (in_range rows) (toggle_cells (Some rows) selected col isChecked tds).
Proof.
  induction 1 as [|cell tds [Hcell Hinput] Htds IH]; simpl; [constructor |].
  destruct (decide _); [|by constructor].
  unfold toggle_cell.
  destruct (rows !! td_rowIndex cell); simpl; [|by constructor].
  constructor; [|done]. split; simpl; [done |]. by destruct isChecked.
Qed.

(** With the table in range the listener reaches every selected cell: it
    shows the current value of [csvData[rowIndex][col]], in an input when
    the box is ticked and as text when it is not. *)
Lemma toggle_cells_selected rows selected col isChecked tds : ∀ i cell row,
  Forall (in_range rows) tds →
  tds !! i = Some cell → td_column cell ∈ selected →
  rows !! td_rowIndex cell = Some row →
  toggle_cells (Some rows) selected col isChecked tds !! i
  = Some {| td_column := td_column cell; td_rowIndex := td_rowIndex cell;
            td_content := if isChecked
                          then Input (get_prop row col) col (td_rowIndex cell)
                          else Text (get_prop row col) |}.
Proof.
  induction tds as [|td tds IH]; intros i cell row Hrange Hi Hsel Hrow; [done |].
  apply Forall_cons in Hrange as [[Htd _] Hrange]. simpl.
  destruct (lookup_lt_is_Some_2 rows _ Htd) as [row' Hrow'].
  destruct i as [|i]; simpl in Hi.
  - injection Hi as ->. rewrite decide_True by done.
    unfold toggle_cell. rewrite Hrow. done.
  - destruct (decide _); simpl; [|by apply IH].
    unfold toggle_cell. rewrite Hrow'. simpl. by apply IH.
Qed.

Lemma checkbox_change_slots_in_range page i page' :
  slots_in_range page → checkbox_change i page = Some page' → slots_in_range page'.
Proof.
  intros (rows & Hrows & Hrange). unfold checkbox_change, toggleModification.
  destruct (checkboxes page !! i) as [checkbox |]; [|intros [= <-]; by exists rows].
  simpl. destruct (querySelectorAll _); simpl; [|done]. intros [= <-].
  exists rows. split; [done |]. simpl. rewrite Hrows.
  by apply toggle_cells_in_range.
Qed.

Lemma input_event_slots_in_range page i typed :
  slots_in_range page → slots_in_range (input_event i typed page).
Proof.
  intros (rows & Hrows & Hrange). unfold input_event.
  destruct (cells page !! i) as [[c r [v | v column ri]] |] eqn:Hcell;
    try by exists rows.
  rewrite Hrows.
  pose proof (Forall_lookup_1 _ _ _ _ Hrange Hcell) as [Hr Hri]. simpl in Hr, Hri.
  destruct (input_listener_writes rows ri column typed Hri) as (rows' & -> & Hlen & _).
  exists rows'. split; [done |]. simpl.
  apply Forall_insert; [|by split; simpl; rewrite Hlen].
  eapply Forall_impl; [done |]. intros cell. by apply in_range_length.
Qed.

(** An input event on the page writes the typed text through to the slot
    of [csvData] that the input element stands for. *)
Lemma input_event_writes page i v column ri c r typed :
  slots_in_range page →
  cells page !! i
  = Some {| td_column := c; td_rowIndex := r; td_content := Input v column ri |} →
  ∃ rows',
    csvData (input_event i typed page) = Some rows' ∧
    read_cell rows' ri column = Ok (Str typed).
Proof.
  intros (rows & Hrows & Hrange) Hcell. unfold input_event. rewrite Hcell, Hrows.
  pose proof (Forall_lookup_1 _ _ _ _ Hrange Hcell) as [_ Hri]. simpl in Hri.
  destruct (input_listener_writes rows ri column typed Hri) as (rows' & -> & _ & Hread).
  exists rows'. split; [done |]. rewrite Hread. by rewrite decide_True.
Qed.

(** Loading a file and asking for the download hands the parsed rows to
    [Papa.unparse] as they are. *)
Lemma download_after_load Papa_parse Papa_unparse content page row rows :
  Papa_parse content = Ok (row :: rows) →
  (downloadButton_click Papa_unparse
     (csvInput_change Papa_parse (Some content) page).1).2
  = [Download "modified.csv" (Papa_unparse (row :: rows))].
Proof. intros Hparse. unfold csvInput_change. rewrite Hparse. done. Qed.

(** The errors that a parse records without throwing play no part in the
    answer: the handler reads the rows alone. *)
Lemma parse_errors_ignored M M' event :
  form_parse M' = form_parse M → readFileSync M' = readFileSync M →
  Parser_parse M' = Parser_parse M →
  (∀ content,
     Papa_parse M' content
     = match Papa_parse M content with
       | Ok results => Ok {| data := data results; errors := [] |}
       | Throw message => Throw message
       end) →
  handler M' event = handler M event.
Proof.
  intros Hform Hread Hparser Hparse.
  assert (∀ file, read_rows M' file = read_rows M file) as Hrows.
  { intros file. unfold read_rows. destruct (file_path file); [|done].
    rewrite Hread. destruct (readFileSync M s) as [content |]; simpl; [|done].
    rewrite Hparse. by destruct (Papa_parse M content). }
  assert (∀ fileArray allData,
    forEach_file M' fileArray allData = forEach_file M fileArray allData) as Heach.
  { induction fileArray as [|file rest IH]; intros allData; simpl; [done |].
    rewrite Hrows. destruct (read_rows M file); simpl; [apply IH | done]. }
  unfold handler, process, uniqueData. rewrite Hform, Hparser.
  destruct (decide _); [done |]. destruct (form_parse M event); [|done].
  simpl. by rewrite Heach.
Qed.

(** The answers that come before any file is read. *)
Lemma handler_before_reading M event :
  (httpMethod event ≠ "POST" → handler M event = method_not_allowed) ∧
  (httpMethod event = "POST" → (∃ message, form_parse M event = Throw message) →
   handler M event = form_error).
Proof.
  unfold handler. split.
  - intros H. by rewrite decide_True.
  - intros H [message ->]. by rewrite decide_False by (by intros ?).
Qed.

Lemma plain_column_toggle_frame_witness :
  ∃ page',
    checkbox_change 1 people_page = Some page' ∧
    csvData page' = csvData people_page ∧
    checkboxes page' !! 0 = checkboxes people_page !! 0 ∧
    cells page' !! 2 = cells people_page !! 2.
Proof.
  destruct (plain_column_toggle_frame people_page 1
              {| cb_column := "age"; checked := false |})
    as (page' & Hchange & Hrows & Hboxes & Hcells);
    [reflexivity | reflexivity |].
  exists page'. split; [exact Hchange |]. split; [exact Hrows |].
  split; [apply Hboxes; lia |].
  apply (Hcells 2 {| td_column := "name"; td_rowIndex := 1;
                     td_content := Text (Str "Bob") |});
    [reflexivity | discriminate].
Defined.

Lemma input_event_writes_witness :
  ∃ rows',
    csvData (input_event 3 "26" editing_page) = Some rows' ∧
    read_cell rows' 1 "age" = Ok (Str "26").
Proof.
  apply (input_event_writes editing_page 3 (Str "25") "age" 1 "age" 1 "26");
    [|reflexivity].
  apply (checkbox_change_slots_in_range people_page 1); [|reflexivity].
  by apply (buildTable_slots_in_range _
              [ [("name", Str "Alice"); ("age", Str "30")];
                [("name", Str "Bob"); ("age", Str "25")] ]).
Defined.

(** Ticking the box of a plain-named column turns each of its cells into an
    input seeded with the current value of [csvData] for that row and
    column; unticking it shows the current value as text again. *)
Lemma toggle_shows_current_value page i checkbox rows :
  csvData page = Some rows →
  Forall (in_range rows) (cells page) →
  checkboxes page !! i = Some checkbox →
  plain_name (cb_column checkbox) = true →
  ∃ page',
    checkbox_change i page = Some page' ∧
    checkboxes page' !! i = Some (toggled checkbox) ∧
    ∀ j cell row,
      cells page !! j = Some cell →
      td_column cell = cb_column checkbox →
      rows !! td_rowIndex cell = Some row →
      cells page' !! j
      = Some {| td_column := td_column cell; td_rowIndex := td_rowIndex cell;
                td_content :=
                  if negb (checked checkbox)
                  then Input (get_prop row (cb_column checkbox))
                         (cb_column checkbox) (td_rowIndex cell)
                  else Text (get_prop row (cb_column checkbox)) |}.
Proof.
  intros Hrows Hrange Hbox Hplain.
  unfold checkbox_change, toggleModification. rewrite Hbox. simpl.
  rewrite (querySelectorAll_plain _ Hplain). simpl.
  eexists. split; [done |]. simpl. split.
  - apply list_lookup_insert_eq. by apply lookup_lt_Some in Hbox.
  - intros j cell row Hcell Hcol Hrow. rewrite Hrows.
    apply toggle_cells_selected; try done.
    rewrite Hcol. by apply list_elem_of_singleton.
Qed.

Lemma toggle_shows_current_value_witness :
  ∃ page',
    checkbox_change 1 editing_page = Some page' ∧
    checkboxes page' !! 1 = Some {| cb_column := "age"; checked := false |} ∧
    cells page' !! 3
    = Some {| td_column := "age"; td_rowIndex := 1; td_content := Text (Str "25") |}.
Proof.
  destruct (toggle_shows_current_value editing_page 1
              {| cb_column := "age"; checked := true |}
              [ [("name", Str "Alice"); ("age", Str "30")];
                [("name", Str "Bob"); ("age", Str "25")] ])
    as (page' & Hchange & Hbox & Hcells);
    [reflexivity | | reflexivity | reflexivity |].
  { repeat constructor; simpl; lia. }
  exists page'. split; [exact Hchange |]. split; [exact Hbox |].
  apply (Hcells 3 {| td_column := "age"; td_rowIndex := 1;
                     td_content := Input (Str "25") "age" 1 |}
           [("name", Str "Bob"); ("age", Str "25")]); reflexivity.
Defined.

(** What the page adds to Papa Parse: it keeps the parsed rows as they are
    and hands all of them to [unparse].  Where [parse] reads the text of
    [unparse] back as the same rows, loading a file, downloading it and
    loading the download again shows the rows of the first load. *)
Lemma reload_of_download Papa_parse Papa_unparse X row rows page :
  Papa_parse X = Ok (row :: rows) →
  Papa_parse (Papa_unparse (row :: rows)) = Ok (row :: rows) →
  ∃ text,
    (downloadButton_click Papa_unparse
       (csvInput_change Papa_parse (Some X) page).1).2
    = [Download "modified.csv" text] ∧
    (csvInput_change Papa_parse (Some text)
       (csvInput_change Papa_parse (Some X) page).1).1
    = (csvInput_change Papa_parse (Some X) page).1 ∧
    csvData (csvInput_change Papa_parse (Some X) page).1 = Some (row :: rows).
Proof.
  intros Hparse Hback. exists (Papa_unparse (row :: rows)).
  unfold csvInput_change. rewrite Hparse. simpl. rewrite Hback. done.
Qed.

Lemma reload_of_download_witness :
  ∃ text,
    (downloadButton_click (λ _, "a")
       (csvInput_change (λ _, Ok [Samples.r1]) (Some "a") initial).1).2
    = [Download "modified.csv" text] ∧
    csvData (csvInput_change (λ _, Ok [Samples.r1]) (Some text)
               (csvInput_change (λ _, Ok [Samples.r1]) (Some "a") initial).1).1
    = Some [Samples.r1].
Proof.
  destruct (reload_of_download (λ _, Ok [Samples.r1]) (λ _, "a") "a"
              Samples.r1 [] initial) as (text & Hdownload & Hreload & Hrows);
    [reflexivity | reflexivity |].
  exists text. split; [exact Hdownload |]. rewrite Hreload. exact Hrows.
Defined.

(** ** What the duplicate filter keeps, loses and repeats *)

Lemma Exists_identical_mono (row : Row) earlier more :
  Exists (identical row) earlier → Exists (identical row) (earlier ++ more).
Proof. intros H. apply Exists_app. by left. Qed.

Lemma first_occurrences_sublist rows : ∀ earlier,
  first_occurrences earlier rows `sublist_of` rows.
Proof.
  induction rows as [|row rows IH]; intros earlier; simpl; [done |].
  destruct (decide _); [by apply sublist_cons | by apply sublist_skip].
Qed.

Lemma first_occurrences_fresh rows : ∀ earlier row,
  row ∈ first_occurrences earlier rows → ¬ Exists (identical row) earlier.
Proof.
  induction rows as [|r rows IH]; intros earlier row; simpl; [by intros ?%elem_of_nil |].
  destruct (decide (Exists (identical r) earlier)) as [Hr | Hr].
  - intros Hin%IH Hex. apply Hin. by apply Exists_identical_mono.
  - intros [-> | Hin%IH]%elem_of_cons; [done |].
    intros Hex. apply Hin. by apply Exists_identical_mono.
Qed.

Lemma first_occurrences_NoDup rows : ∀ earlier,
  NoDup (serialized <$> first_occurrences earlier rows).
Proof.
  induction rows as [|r rows IH]; intros earlier; simpl; [constructor |].
  destruct (decide _); [apply IH |].
  rewrite fmap_cons. constructor; [|apply IH].
  intros (r' & Hser & Hin%first_occurrences_fresh)%list_elem_of_fmap.
  apply Hin, Exists_app. right. apply Exists_cons. left. done.
Qed.

Lemma first_occurrences_covers rows : ∀ earlier row,
  row ∈ rows → Exists (identical row) (earlier ++ first_occurrences earlier rows).
Proof.
  induction rows as [|r rows IH]; intros earlier row; [by intros ?%elem_of_nil |].
  simpl. intros [-> | Hin]%elem_of_cons.
  - destruct (decide (Exists (identical r) earlier)) as [Hr | Hr].
    + by apply Exists_identical_mono.
    + apply Exists_app. right. apply Exists_cons. left. done.
  - specialize (IH (earlier ++ [r]) row Hin).
    destruct (decide (Exists (identical r) earlier)) as [Hr | Hr].
    + apply Exists_app in IH as [[He | Hr']%Exists_app | Hl].
      * by apply Exists_identical_mono.
      * apply Exists_cons in Hr' as [Hr' | ?%Exists_nil]; [|done].
        apply Exists_identical_mono.
        apply Exists_exists in Hr as (e & He & Hre). apply Exists_exists.
        exists e. split; [done |]. unfold identical in *. congruence.
      * apply Exists_app. by right.
    + rewrite <- app_assoc in IH. exact IH.
Qed.

Lemma first_occurrences_seen rows : ∀ earlier,
  Forall (λ row, Exists (identical row) earlier) rows →
  first_occurrences earlier rows = [].
Proof.
  induction rows as [|r rows IH]; intros earlier Hall; simpl; [done |].
  apply Forall_cons in Hall as [Hr Hall]. rewrite decide_True by done.
  apply IH. eapply Forall_impl; [done |]. intros row. apply Exists_identical_mono.
Qed.

Lemma first_occurrences_distinct rows : ∀ earlier,
  NoDup (serialized <$> rows) →
  Forall (λ row, ¬ Exists (identical row) earlier) rows →
  first_occurrences earlier rows = rows.
Proof.
  induction rows as [|r rows IH]; intros earlier Hnd Hall; simpl; [done |].
  rewrite fmap_cons in Hnd. apply NoDup_cons in Hnd as [Hr Hnd].
  apply Forall_cons in Hall as [Hfresh Hall]. rewrite decide_False by done.
  f_equal. apply IH; [done |].
  apply Forall_forall. intros row Hrow [He | Hr']%Exists_app.
  - by apply (proj1 (Forall_forall _ _) Hall row).
  - apply Exists_cons in Hr' as [Hr' | ?%Exists_nil]; [|done].
    apply Hr. apply list_elem_of_fmap. exists row. split; [symmetry; exact Hr' | done].
Qed.

(** A row has a cell with content exactly when its defined cells have one:
    rows with the same key are blank together. *)
Lemma kept_serialized (row : Row) :
  Exists has_content (Object_values row)
  ↔ Exists has_content (Object_values (serialized row)).
Proof.
  unfold serialized, Object_values.
  induction row as [|[k v] row IH]; [done |].
  rewrite filter_cons. destruct (decide _) as [Hv | Hv]; simpl in Hv.
  - rewrite !fmap_cons, !Exists_cons, IH. done.
  - rewrite fmap_cons, Exists_cons, IH. simpl.
    destruct v; [|exfalso; by apply Hv..].
    split; [intros [(_ & H & _) | H]; [done | exact H] | by right].
Qed.

Lemma kept_identical (r1 r2 : Row) :
  identical r1 r2 →
  Exists has_content (Object_values r1) ↔ Exists has_content (Object_values r2).
Proof. intros H. rewrite (kept_serialized r1), (kept_serialized r2), H. done. Qed.

Lemma filter_first_occurrences rows : ∀ earlier,
  removeEmptyRows (first_occurrences earlier rows)
  = first_occurrences (removeEmptyRows earlier) (removeEmptyRows rows).
Proof.
  unfold removeEmptyRows.
  induction rows as [|r rows IH]; intros earlier; [done |].
  pose proof (IH (earlier ++ [r])) as IH'. rewrite filter_app in IH'.
  simpl first_occurrences at 1.
  destruct (decide (Exists has_content (Object_values r))) as [Hr | Hr].
  - rewrite (filter_cons_True _ r rows) by done.
    rewrite (filter_cons_True _ r []), filter_nil in IH' by done. simpl.
    destruct (decide (Exists (identical r) earlier)) as [He | He].
    + rewrite decide_True; [done |].
      apply Exists_exists in He as (e & He & Hre). apply Exists_exists.
      exists e. split; [|done]. apply list_elem_of_filter. split; [|done].
      by apply (kept_identical r e).
    + rewrite decide_False.
      * rewrite filter_cons_True by done. by f_equal.
      * intros (e & [_ Hin]%list_elem_of_filter & Hre)%Exists_exists.
        apply He. apply Exists_exists. eauto.
  - rewrite (filter_cons_False _ r rows) by done.
    rewrite (filter_cons_False _ r []), filter_nil, app_nil_r in IH' by done.
    destruct (decide (Exists (identical r) earlier)); [done |].
    by rewrite filter_cons_False.
Qed.

Lemma filter_all {A} (P : A → Prop) `{!∀ x, Decision (P x)} (l : list A) :
  Forall P l → filter P l = l.
Proof.
  induction 1 as [|x l Hx _ IH]; [done |]. by rewrite filter_cons_True, IH.
Qed.

Lemma removeEmptyRows_idempotent allData :
  removeEmptyRows (removeEmptyRows allData) = removeEmptyRows allData.
Proof.
  unfold removeEmptyRows. apply filter_all, Forall_forall.
  by intros row [? _]%list_elem_of_filter.
Qed.

Lemma forEach_file_from M fileArray : ∀ allData,
  forEach_file M fileArray allData
  = match forEach_file M fileArray [] with
    | Ok rows => Ok (allData ++ rows)
    | Throw message => Throw message
    end.
Proof.
  induction fileArray as [|file rest IH]; intros allData; simpl.
  - by rewrite app_nil_r.
  - destruct (read_rows M file) as [rows | message]; simpl; [|done].
    rewrite (IH (allData ++ rows)), (IH rows).
    destruct (forEach_file M rest []); [|done]. by rewrite app_assoc.
Qed.

Lemma forEach_file_app M files1 files2 : ∀ allData,
  forEach_file M (files1 ++ files2) allData
  = forEach_file M files1 allData ≫= forEach_file M files2.
Proof.
  induction files1 as [|file rest IH]; intros allData; simpl; [done |].
  destruct (read_rows M file) as [rows | message]; simpl; [apply IH | done].
Qed.

(** The duplicate filter keeps the order of the rows, loses no record and
    repeats none: its result is a sublist of the rows it is given, every
    row it is given has its key on a row of the result, and no two rows of
    the result have the same key. *)
Theorem duplicate_filter_loses_nothing allData :
  removeDuplicates allData `sublist_of` allData ∧
  (∀ row : Row, row ∈ allData →
     ∃ kept : Row, kept ∈ removeDuplicates allData
                   ∧ JSON_stringify kept = JSON_stringify row) ∧
  (∀ i j (ri rj : Row),
     removeDuplicates allData !! i = Some ri →
     removeDuplicates allData !! j = Some rj →
     JSON_stringify ri = JSON_stringify rj → i = j).
Proof.
  rewrite removeDuplicates_first_occurrences. split; [|split].
  - apply first_occurrences_sublist.
  - intros row Hrow.
    pose proof (first_occurrences_covers allData [] row Hrow) as Hex.
    apply Exists_exists in Hex as (kept & Hkept & Hsame). exists kept.
    split; [done |]. symmetry. by apply JSON_stringify_inj.
  - intros i j ri rj Hi Hj Hkey%JSON_stringify_inj.
    eapply (NoDup_lookup _ i j (serialized ri)).
    + apply (first_occurrences_NoDup allData []).
    + by rewrite list_lookup_fmap, Hi.
    + by rewrite list_lookup_fmap, Hj, Hkey.
Qed.

Lemma removeEmptyRows_removeDuplicates allData :
  removeEmptyRows (removeDuplicates allData)
  = removeDuplicates (removeEmptyRows allData).
Proof.
  rewrite !removeDuplicates_first_occurrences.
  apply (filter_first_occurrences allData []).
Qed.

(** Blank rows and duplicates can be removed in either order. *)
Theorem filters_commute allData :
  removeEmptyRows (removeDuplicates allData)
  = removeDuplicates (removeEmptyRows allData).
Proof.
  rewrite !removeDuplicates_first_occurrences.
  apply (filter_first_occurrences allData []).
Qed.

(** Merging what a merge gave changes nothing, and neither does uploading
    every file a second time: the answer is that of the first upload, the
    error of a file that cannot be read included. *)
Theorem merging_again_changes_nothing :
  (∀ allData,
     removeDuplicates (removeEmptyRows (removeDuplicates (removeEmptyRows allData)))
     = removeDuplicates (removeEmptyRows allData)) ∧
  (∀ M fileArray,
     uniqueData M (fileArray ++ fileArray) = uniqueData M fileArray).
Proof.
  split.
  - intros allData. rewrite <- (removeEmptyRows_removeDuplicates allData) at 1.
    rewrite removeEmptyRows_idempotent, removeEmptyRows_removeDuplicates.
    rewrite !removeDuplicates_first_occurrences.
    apply first_occurrences_distinct; [apply first_occurrences_NoDup |].
    apply Forall_forall. by intros row _ ?%Exists_nil.
  - intros M fileArray. unfold uniqueData.
    rewrite forEach_file_app.
    destruct (forEach_file M fileArray []) as [rows | message] eqn:Hread;
      simpl; [|done].
    rewrite forEach_file_from, Hread. simpl. f_equal.
    unfold removeEmptyRows. rewrite filter_app.
    rewrite !removeDuplicates_first_occurrences, first_occurrences_app.
    rewrite (first_occurrences_seen _ ([] ++ _)); [by rewrite app_nil_r |].
    apply Forall_forall. intros row Hrow. apply Exists_exists.
    exists row. split; [done | reflexivity].
Qed.

Lemma removeDuplicates_NoDup_keys allData :
  NoDup (JSON_stringify <$> removeDuplicates allData).
Proof.
  rewrite removeDuplicates_first_occurrences. apply NoDup_alt.
  intros i j key Hi Hj. rewrite list_lookup_fmap in Hi, Hj.
  destruct (first_occurrences [] allData !! i) as [ri |] eqn:Hri; [|done].
  destruct (first_occurrences [] allData !! j) as [rj |] eqn:Hrj; [|done].
  simpl in Hi, Hj.
  assert (identical ri rj) as Hsame by (apply JSON_stringify_inj; congruence).
  eapply (NoDup_lookup _ i j (serialized ri)).
  - apply (first_occurrences_NoDup allData []).
  - by rewrite list_lookup_fmap, Hri.
  - by rewrite list_lookup_fmap, Hrj, Hsame.
Qed.

Lemma removeDuplicates_keys allData key :
  key ∈ JSON_stringify <$> removeDuplicates allData
  ↔ key ∈ JSON_stringify <$> allData.
Proof.
  rewrite removeDuplicates_first_occurrences. split.
  - intros (row & -> & Hrow)%list_elem_of_fmap. apply list_elem_of_fmap.
    exists row. split; [done |].
    by apply (sublist_subseteq _ _ (first_occurrences_sublist allData [])).
  - intros (row & -> & Hrow)%list_elem_of_fmap.
    pose proof (first_occurrences_covers allData [] row Hrow) as Hex.
    apply Exists_exists in Hex as (kept & Hkept & Hsame).
    apply list_elem_of_fmap. exists kept. split; [|done].
    by apply JSON_stringify_inj.
Qed.

Lemma merged_keys_Permutation allData allData' :
  allData ≡ₚ allData' →
  JSON_stringify <$> removeDuplicates (removeEmptyRows allData)
  ≡ₚ JSON_stringify <$> removeDuplicates (removeEmptyRows allData').
Proof.
  intros Hperm. apply NoDup_Permutation; [apply removeDuplicates_NoDup_keys.. |].
  intros key. rewrite !removeDuplicates_keys. unfold removeEmptyRows.
  by rewrite Hperm.
Qed.

Lemma forEach_file_Permutation M files files' :
  files ≡ₚ files' →
  ∀ allData, forEach_file M files [] = Ok allData →
  ∃ allData', forEach_file M files' [] = Ok allData' ∧ allData' ≡ₚ allData.
Proof.
  induction 1 as [|file files files' _ IH | file1 file2 files | l1 l2 l3 _ IH1 _ IH2];
    intros allData; simpl.
  - intros [= <-]. by exists [].
  - destruct (read_rows M file) as [rows | message]; simpl; [|done].
    rewrite (forEach_file_from M files), (forEach_file_from M files').
    destruct (forEach_file M files []) as [more |]; [|done].
    intros [= <-]. destruct (IH more eq_refl) as (more' & -> & Hperm).
    exists (rows ++ more'). split; [done |]. by rewrite Hperm.
  - destruct (read_rows M file2) as [rows2 | message]; simpl; [|done].
    destruct (read_rows M file1) as [rows1 | message]; simpl; [|done].
    rewrite (forEach_file_from M files (rows2 ++ rows1)),
            (forEach_file_from M files (rows1 ++ rows2)).
    destruct (forEach_file M files []) as [more |]; [|done].
    intros [= <-]. eexists. split; [done |].
    apply Permutation_app; [apply Permutation_app_comm | done].
  - intros H1. destruct (IH1 _ H1) as (d2 & H2 & Hp2).
    destruct (IH2 _ H2) as (d3 & H3 & Hp3). exists d3. split; [done |].
    by rewrite Hp3.
Qed.

(** The order in which the files are uploaded decides the order of the
    merged rows and nothing else: with the files in another order the merge
    succeeds as well, and its rows have the same keys. *)
Theorem upload_order_only_reorders M fileArray fileArray' rows :
  fileArray ≡ₚ fileArray' →
  uniqueData M fileArray = Ok rows →
  ∃ rows',
    uniqueData M fileArray' = Ok rows' ∧
    JSON_stringify <$> rows' ≡ₚ JSON_stringify <$> rows.
Proof.
  intros Hperm. unfold uniqueData.
  destruct (forEach_file M fileArray []) as [allData |] eqn:Hread; simpl; [|done].
  intros [= <-].
  destruct (forEach_file_Permutation M _ _ Hperm _ Hread) as (allData' & -> & Hdata).
  simpl. eexists. split; [done |]. by apply merged_keys_Permutation.
Qed.

Lemma upload_order_only_reorders_witness :
  ∃ rows',
    uniqueData (Samples.modules Samples.two_files "" Samples.two_tables)
      [Samples.upload "b.csv"; Samples.upload "a.csv"] = Ok rows' ∧
    JSON_stringify <$> rows'
    ≡ₚ JSON_stringify <$> [Samples.r1; Samples.r2; Samples.r3].
Proof.
  apply (upload_order_only_reorders
           (Samples.modules Samples.two_files "" Samples.two_tables)
           [Samples.upload "a.csv"; Samples.upload "b.csv"]).
  - apply perm_swap.
  - vm_compute. reflexivity.
Defined.

(** ** The answers of the handler and the combine button *)

Lemma handler_cases M event :
  (httpMethod event ≠ "POST" ∧ handler M event = method_not_allowed) ∨
  (httpMethod event = "POST" ∧
   ((∃ message, form_parse M event = Throw message) ∧ handler M event = form_error ∨
    ∃ field, form_parse M event = Ok field ∧
      (select_files field = [] ∧ handler M event = no_files_uploaded ∨
       select_files field ≠ [] ∧
       ((∃ message, process M (select_files field) = Throw message)
          ∧ handler M event = server_error ∨
        ∃ allData csv,
          forEach_file M (select_files field) [] = Ok allData ∧
          Parser_parse M (removeDuplicates (removeEmptyRows allData)) = Ok csv ∧
          handler M event
          = {| statusCode := 200; headers := csv_headers; body := csv |})))).
Proof.
  destruct (decide (httpMethod event = "POST")) as [Hpost | Hpost].
  2: { left. split; [done |]. unfold handler. by rewrite decide_True. }
  right. split; [done |].
  destruct (form_parse M event) as [field | message] eqn:Hform.
  2: { left. split; [by exists message |]. unfold handler.
       rewrite Hform. by rewrite decide_False by (by intros ?). }
  right. exists field. split; [done |].
  rewrite (handler_post M event field Hpost Hform).
  destruct (select_files field) as [|file rest] eqn:Hfiles; [by left |].
  right. split; [done |]. unfold process, uniqueData.
  destruct (forEach_file M (file :: rest) []) as [allData | message]; simpl.
  - destruct (Parser_parse M _) as [csv | message] eqn:Hcsv; simpl.
    + right. by exists allData, csv.
    + left. split; [by exists message | done].
  - left. split; [by exists message | done].
Qed.

(** The handler has five answers.  It answers 200 exactly when the request
    is a POST with at least one file, every file is read and parsed, and
    the serializer returns a text; the answer then carries the CSV headers
    and that text.  Every other answer is one of four fixed responses. *)
Lemma handler_answers M event :
  (statusCode (handler M event) = 200
   ↔ httpMethod event = "POST" ∧
     ∃ field allData csv,
       form_parse M event = Ok field ∧ select_files field ≠ [] ∧
       forEach_file M (select_files field) [] = Ok allData ∧
       Parser_parse M (removeDuplicates (removeEmptyRows allData)) = Ok csv) ∧
  (∀ field allData csv,
     httpMethod event = "POST" → form_parse M event = Ok field →
     select_files field ≠ [] →
     forEach_file M (select_files field) [] = Ok allData →
     Parser_parse M (removeDuplicates (removeEmptyRows allData)) = Ok csv →
     handler M event = {| statusCode := 200; headers := csv_headers; body := csv |}) ∧
  (statusCode (handler M event) ≠ 200 →
   handler M event ∈ [method_not_allowed; form_error; no_files_uploaded; server_error]).
Proof.
  assert (∀ field allData csv,
     httpMethod event = "POST" → form_parse M event = Ok field →
     select_files field ≠ [] →
     forEach_file M (select_files field) [] = Ok allData →
     Parser_parse M (removeDuplicates (removeEmptyRows allData)) = Ok csv →
     handler M event = {| statusCode := 200; headers := csv_headers; body := csv |})
    as Hok.
  { intros field allData csv Hpost Hform Hfiles Hread Hcsv.
    rewrite (handler_post M event field Hpost Hform).
    destruct (select_files field); [done |].
    unfold process, uniqueData. rewrite Hread. simpl. by rewrite Hcsv. }
  split; [|split; [exact Hok |]].
  - split.
    + destruct (handler_cases M event)
        as [[_ ->] | [Hpost [[_ ->] | (field & Hform & [[_ ->] | [Hfiles
             [[_ ->] | (allData & csv & Hread & Hcsv & _)]]])]]]; try done.
      intros _. split; [done |]. by exists field, allData, csv.
    + intros (Hpost & field & allData & csv & Hform & Hfiles & Hread & Hcsv).
      by rewrite (Hok field allData csv).
  - intros Hstatus.
    destruct (handler_cases M event)
      as [[_ ->] | [Hpost [[_ ->] | (field & Hform & [[_ ->] | [Hfiles
           [[_ ->] | (allData & csv & Hread & Hcsv & Hanswer)]]])]]].
    + set_solver.
    + set_solver.
    + set_solver.
    + set_solver.
    + by rewrite Hanswer in Hstatus.
Qed.

(** The promise of the handler is rejected exactly when the request is a
    POST and formidable throws before it calls back.  It is resolved with
    status 200 exactly when the request is a POST with at least one file,
    formidable calls back, every file is read and parsed, and the
    serializer returns a text; the answer then is the CSV headers and that
    text.  Every other answer it is resolved with is one of four fixed
    responses. *)
Theorem handler_settles M thrown event :
  (∀ reason,
     exports_handler M thrown event = Rejected reason
     ↔ httpMethod event = "POST" ∧ thrown event = Some reason) ∧
  ((∃ response,
      exports_handler M thrown event = Resolved response ∧ statusCode response = 200)
   ↔ httpMethod event = "POST" ∧ thrown event = None ∧
     ∃ field allData csv,
       form_parse M event = Ok field ∧ select_files field ≠ [] ∧
       forEach_file M (select_files field) [] = Ok allData ∧
       Parser_parse M (removeDuplicates (removeEmptyRows allData)) = Ok csv) ∧
  (∀ response,
     exports_handler M thrown event = Resolved response →
     (∃ field allData csv,
        form_parse M event = Ok field ∧
        forEach_file M (select_files field) [] = Ok allData ∧
        Parser_parse M (removeDuplicates (removeEmptyRows allData)) = Ok csv ∧
        response = {| statusCode := 200; headers := csv_headers; body := csv |}) ∨
     response ∈ [method_not_allowed; form_error; no_files_uploaded; server_error]).
Proof.
  unfold exports_handler.
  destruct (handler_answers M event) as (Hiff & Hok & Hfixed).
  destruct (decide (httpMethod event ≠ "POST")) as [Hverb | Hverb].
  - split; [|split].
    + intros reason. split; [done | by intros [? _]].
    + split; [by intros (response & [= <-] & ?) | by intros [? _]].
    + intros response [= <-]. right. by left.
  - assert (httpMethod event = "POST") as Hpost.
    { by destruct (decide (httpMethod event = "POST")). }
    destruct (thrown event) as [reason |].
    + split; [|split].
      * intros reason'. split; [by intros [= ->] | by intros [_ [= ->]]].
      * split; [by intros (response & ? & _) | by intros (_ & ? & _)].
      * done.
    + split; [|split].
      * intros reason. split; [done | by intros [_ ?]].
      * split.
        -- intros (response & [= <-] & Hstatus). split; [done |]. split; [done |].
           by apply Hiff in Hstatus as [_ ?].
        -- intros (_ & _ & Hfiles). eexists. split; [done |]. apply Hiff. by split.
      * intros response [= <-].
        destruct (decide (statusCode (handler M event) = 200)) as [Hstatus | Hstatus].
        -- left. apply Hiff in Hstatus
             as (_ & field & allData & csv & Hform & Hfiles & Hread & Hcsv).
           exists field, allData, csv. split; [done |]. split; [done |].
           split; [done |]. by apply (Hok field allData csv).
        -- right. by apply Hfixed.
Qed.

Lemma handler_ok M event :
  response_ok (handler M event) = bool_decide (statusCode (handler M event) = 200).
Proof.
  destruct (handler_cases M event)
    as [[_ ->] | [Hpost [[_ ->] | (field & Hform & [[_ ->] | [Hfiles
         [[_ ->] | (allData & csv & Hread & Hcsv & ->)]]])]]]; done.
Qed.

(** The combine button against the function: with two files or more
    chosen, the page downloads [combined.csv] holding the body of the
    answer when the function answers 200, and in every other case shows the
    same alert, whatever went wrong in the function. *)
Theorem combine_downloads_answer M event fetch chosen :
  2 ≤ length chosen →
  fetch chosen = Ok (handler M event) →
  combineButton_click fetch (Some chosen)
  = if decide (statusCode (handler M event) = 200)
    then [Download "combined.csv" (body (handler M event))]
    else [Alert "Error combining files: Network response was not ok"].
Proof.
  intros Hlen Hfetch. unfold combineButton_click.
  rewrite decide_False by lia. rewrite Hfetch, handler_ok.
  by destruct (decide (statusCode (handler M event) = 200));
    [rewrite bool_decide_eq_true_2 | rewrite bool_decide_eq_false_2].
Qed.

Lemma combine_downloads_answer_witness :
  combineButton_click
    (λ _, Ok (handler (Samples.modules Samples.two_files "" Samples.two_tables)
                Samples.post))
    (Some ["a.csv"; "b.csv"])
  = [Download "combined.csv"
       ("a,b" +:+ Json2csv.line_feed +:+ "1,2" +:+ Json2csv.line_feed +:+ "3,4"
        +:+ Json2csv.line_feed +:+ "5,6")].
Proof.
  apply (combine_downloads_answer
           (Samples.modules Samples.two_files "" Samples.two_tables) Samples.post
           (λ _, Ok (handler (Samples.modules Samples.two_files "" Samples.two_tables)
                       Samples.post))
           ["a.csv"; "b.csv"]).
  - simpl. lia.
  - reflexivity.
Defined.

(** ** The table follows the rows *)

Lemma elem_of_slots_from rows : ∀ n k i,
  (k, i) ∈ slots_from n rows →
  n ≤ i ∧ ∃ row : Row, rows !! (i - n) = Some row ∧ k ∈ Object_keys row.
Proof.
  induction rows as [|row rows IH]; intros n k i; simpl; [by intros ?%elem_of_nil |].
  intros [Hin | Hin]%elem_of_app.
  - apply list_elem_of_fmap_1 in Hin as (k' & Heq & Hk). injection Heq as -> ->.
    split; [done |]. exists row. by rewrite Nat.sub_diag.
  - apply IH in Hin as (Hle & r & Hr & Hk). split; [lia |]. exists r. split; [|done].
    replace (i - n) with (S (i - S n)) by lia. done.
Qed.

Lemma NoDup_slots_from rows : ∀ n,
  Forall (λ row : Row, NoDup (Object_keys row)) rows → NoDup (slots_from n rows).
Proof.
  induction rows as [|row rows IH]; intros n Hrows; simpl; [constructor |].
  apply Forall_cons in Hrows as [Hrow Hrows]. apply NoDup_app. split; [|split].
  - assert (Inj (=) (=) (λ k : string, (k, n))) by (by intros k1 k2 [= ->]).
    by apply (NoDup_fmap_2 (λ k : string, (k, n))).
  - intros [k i] (k' & Heq & _)%list_elem_of_fmap_1 [Hle _]%elem_of_slots_from.
    injection Heq as -> ->. lia.
  - by apply IH.
Qed.

Lemma slots_from_keys (rows rows' : list Row) : ∀ n,
  Object_keys <$> rows' = Object_keys <$> rows →
  slots_from n rows' = slots_from n rows.
Proof.
  revert rows'. induction rows as [|row rows IH]; intros [|row' rows'] n; try done.
  rewrite !fmap_cons. intros [= Hrow Hrows]. cbn [slots_from]. rewrite Hrow. f_equal. by apply IH.
Qed.

Lemma header_keys (rows rows' : list Row) :
  Object_keys <$> rows' = Object_keys <$> rows → header rows' = header rows.
Proof. destruct rows, rows'; try done. rewrite !fmap_cons. by intros [= ? _]. Qed.

Lemma row_cells_slots n (row : Row) :
  cell_slot <$> row_cells n row = (λ k, (k, n)) <$> Object_keys row.
Proof. unfold row_cells. rewrite <- list_fmap_compose. done. Qed.

Lemma buildTable_slots rows : ∀ n,
  cell_slot <$> mjoin (imap (λ i, row_cells (n + i)) rows) = slots_from n rows.
Proof.
  induction rows as [|row rows IH]; intros n; [done |].
  rewrite imap_cons. simpl. rewrite fmap_app, row_cells_slots, Nat.add_0_r. f_equal.
  rewrite <- (IH (S n)). do 2 f_equal. apply imap_ext. intros i r _. simpl.
  f_equal. lia.
Qed.

Lemma set_prop_keys (row : Row) k v :
  k ∈ Object_keys row → Object_keys (set_prop row k v) = Object_keys row.
Proof.
  unfold Object_keys. induction row as [|[k' v'] row IH]; [by intros ?%elem_of_nil |].
  simpl. destruct (decide (k' = k)) as [-> | Hne]; [done |].
  intros [-> | Hin]%elem_of_cons; [done |]. simpl. f_equal. by apply IH.
Qed.

Lemma ticked_toggled boxes i checkbox :
  NoDup (cb_column <$> boxes) → boxes !! i = Some checkbox →
  (ticked (<[i := toggled checkbox]> boxes) (cb_column checkbox)
   ↔ checked checkbox = false) ∧
  ∀ col, col ≠ cb_column checkbox →
    ticked (<[i := toggled checkbox]> boxes) col ↔ ticked boxes col.
Proof.
  intros Hnd Hbox. pose proof (lookup_lt_Some _ _ _ Hbox) as Hi.
  assert (∀ j box, boxes !! j = Some box → cb_column box = cb_column checkbox → j = i)
    as Hone.
  { intros j box Hj Hcol. apply (NoDup_lookup _ j i (cb_column checkbox) Hnd).
    - by rewrite list_lookup_fmap, Hj, <- Hcol.
    - by rewrite list_lookup_fmap, Hbox. }
  unfold ticked. split; [split |].
  - intros (j & Hj)%list_elem_of_lookup.
    destruct (decide (j = i)) as [-> | Hne].
    + rewrite list_lookup_insert_eq in Hj by done. injection Hj as Hj.
      by apply negb_true_iff.
    + rewrite list_lookup_insert_ne in Hj by done.
      by specialize (Hone j _ Hj eq_refl).
  - intros Hc. apply list_elem_of_lookup. exists i.
    rewrite list_lookup_insert_eq by done. unfold toggled. by rewrite Hc.
  - intros col Hcol. split; intros (j & Hj)%list_elem_of_lookup;
      apply list_elem_of_lookup; exists j.
    + destruct (decide (j = i)) as [-> | Hne].
      * rewrite list_lookup_insert_eq in Hj by done. by injection Hj as Hj.
      * by rewrite list_lookup_insert_ne in Hj.
    + destruct (decide (j = i)) as [-> | Hne].
      * rewrite Hbox in Hj. injection Hj as ->. by destruct Hcol.
      * by rewrite list_lookup_insert_ne.
Qed.

Lemma toggle_cells_slots rows selected col isChecked tds :
  cell_slot <$> toggle_cells rows selected col isChecked tds = cell_slot <$> tds.
Proof.
  induction tds as [|cell tds IH]; [done |]. cbn [toggle_cells].
  destruct (decide _); [|by rewrite !fmap_cons, IH].
  destruct (rows ≫= _) as [cell' |] eqn:Hcell; [|done].
  rewrite !fmap_cons, IH. f_equal.
  destruct rows as [rows |]; [|done]. simpl in Hcell. unfold toggle_cell in Hcell.
  destruct (rows !! td_rowIndex cell); [|done]. by injection Hcell as <-.
Qed.

Lemma toggle_cells_rendered rows boxes boxes' col isChecked tds :
  (ticked boxes' col ↔ isChecked = true) →
  (∀ c, c ≠ col → ticked boxes' c ↔ ticked boxes c) →
  Forall (rendered rows boxes) tds →
  Forall (rendered rows boxes') (toggle_cells (Some rows) [col] col isChecked tds).
Proof.
  intros Hcol Hother. induction 1 as [|cell tds (row & Hrow & Hcontent) _ IH];
    simpl; [constructor |].
  destruct (decide (td_column cell ∈ [col])) as [Hsel%list_elem_of_singleton | Hsel].
  - unfold toggle_cell. rewrite Hrow. simpl. constructor; [|done].
    exists row. simpl. split; [done |]. rewrite Hsel.
    destruct isChecked.
    + by rewrite decide_True by (by apply Hcol).
    + rewrite decide_False; [done |]. intros ?%Hcol. done.
  - constructor; [|done]. exists row. split; [done |]. rewrite Hcontent.
    apply decide_ext. symmetry. apply Hother. intros Heq. apply Hsel.
    rewrite Heq. by left.
Qed.

Lemma checkbox_change_shows page i :
  shows_csvData page →
  ∃ page',
    checkbox_change i page = Some page' ∧ shows_csvData page' ∧
    csvData page' = csvData page.
Proof.
  intros (rows & Hrows & Hkeys & Hboxes & Hplain & Hslots & Hcells).
  unfold checkbox_change.
  destruct (checkboxes page !! i) as [checkbox |] eqn:Hbox.
  2: { exists page. split; [done |]. split; [|done]. by exists rows. }
  assert (plain_name (cb_column checkbox) = true) as Hname.
  { apply (Forall_lookup_1 _ _ i _ Hplain).
    by rewrite <- Hboxes, list_lookup_fmap, Hbox. }
  assert (NoDup (cb_column <$> checkboxes page)) as Hnd.
  { rewrite Hboxes. destruct rows as [|first rest]; [constructor |].
    by apply Forall_cons in Hkeys as [? _]. }
  destruct (ticked_toggled _ _ _ Hnd Hbox) as [Hcol Hother].
  unfold toggleModification. simpl.
  rewrite (querySelectorAll_plain _ Hname). simpl.
  eexists. split; [done |]. split; [|done].
  exists rows. simpl. split; [done |]. split; [done |]. split; [|split; [done |split]].
  - rewrite list_fmap_insert. simpl. rewrite list_insert_id; [done |].
    by rewrite list_lookup_fmap, Hbox.
  - rewrite Hrows. by rewrite toggle_cells_slots.
  - rewrite Hrows. apply (toggle_cells_rendered rows (checkboxes page)); [|done..].
    rewrite Hcol. by destruct (checked checkbox).
Qed.

Lemma Forall_NoDup_keys (rows rows' : list Row) :
  Object_keys <$> rows' = Object_keys <$> rows →
  Forall (λ row : Row, NoDup (Object_keys row)) rows →
  Forall (λ row : Row, NoDup (Object_keys row)) rows'.
Proof.
  intros Heq Hrows.
  apply (Forall_fmap Object_keys (λ keys : list string, NoDup keys)).
  rewrite Heq. by apply Forall_fmap.
Qed.

Lemma input_event_shows page i typed :
  shows_csvData page →
  shows_csvData (input_event i typed page) ∧
  shape (input_event i typed page) = shape page.
Proof.
  intros Hshows.
  pose proof Hshows as (rows & Hrows & Hkeys & Hboxes & Hplain & Hslots & Hcells).
  unfold input_event.
  destruct (cells page !! i) as [[c r [v | v column ri]] |] eqn:Hcell; try done.
  destruct (Forall_lookup_1 _ _ _ _ Hcells Hcell) as (row & Hrow & Hcontent).
  simpl in Hrow, Hcontent.
  destruct (decide (ticked (checkboxes page) c)) as [Hticked |]; [|done].
  injection Hcontent as -> -> ->.
  assert (c ∈ Object_keys row) as Hc.
  { assert ((c, r) ∈ slots_from 0 rows) as Hin.
    { rewrite <- Hslots. apply list_elem_of_lookup. exists i.
      by rewrite list_lookup_fmap, Hcell. }
    apply elem_of_slots_from in Hin as (_ & row' & Hrow' & Hin).
    rewrite Nat.sub_0_r in Hrow'. congruence. }
  rewrite Hrows. unfold input_listener. rewrite Hrow.
  set (row' := set_prop row c (Str typed)).
  assert (Object_keys <$> <[r := row']> rows = Object_keys <$> rows) as Hsame.
  { rewrite list_fmap_insert. apply list_insert_id.
    rewrite list_lookup_fmap, Hrow. simpl. f_equal. symmetry.
    by apply set_prop_keys. }
  split; [|unfold shape; simpl; by rewrite Hrows, Hsame].
  exists (<[r := row']> rows). simpl.
  split; [done |]. split; [by apply (Forall_NoDup_keys rows) |].
  rewrite (header_keys _ _ Hsame), (slots_from_keys _ _ _ Hsame).
  split; [done |]. split; [done |]. split.
  - rewrite list_fmap_insert. rewrite list_insert_id; [done |].
    by rewrite list_lookup_fmap, Hcell.
  - apply Forall_lookup_2. intros j cell Hj.
    destruct (decide (j = i)) as [-> | Hne].
    + rewrite list_lookup_insert_eq in Hj by (by eapply lookup_lt_Some).
      injection Hj as <-. exists row'. simpl.
      split; [apply list_lookup_insert_eq; by eapply lookup_lt_Some |].
      rewrite decide_True by done. unfold row'. by rewrite get_set_prop.
    + rewrite list_lookup_insert_ne in Hj by done.
      destruct (Forall_lookup_1 _ _ _ _ Hcells Hj) as (rowj & Hrowj & Hcontentj).
      assert (cell_slot cell ≠ (c, r)) as Hslot.
      { intros Heq. apply Hne.
        apply (NoDup_lookup (cell_slot <$> cells page) j i (c, r)).
        - rewrite Hslots. by apply NoDup_slots_from.
        - by rewrite list_lookup_fmap, Hj, <- Heq.
        - by rewrite list_lookup_fmap, Hcell. }
      destruct (decide (td_rowIndex cell = r)) as [Hr | Hr].
      * exists row'. split; [rewrite Hr; apply list_lookup_insert_eq; by eapply lookup_lt_Some |].
        assert (rowj = row) as -> by congruence.
        assert (c ≠ td_column cell) as Hcol.
        { intros ->. apply Hslot. unfold cell_slot. by rewrite Hr. }
        unfold row'. by rewrite (get_set_prop_other _ _ _ _ Hcol).
      * exists rowj. split; [|done]. by rewrite list_lookup_insert_ne.
Qed.

Lemma run_shows events : ∀ page,
  shows_csvData page →
  ∃ page', run events page = Some page' ∧ shows_csvData page' ∧ shape page' = shape page.
Proof.
  induction events as [|event events IH]; intros page Hshows; simpl.
  - by exists page.
  - destruct event as [i | i typed]; simpl.
    + destruct (checkbox_change_shows page i Hshows) as (page1 & -> & Hshows1 & Hdata).
      simpl. destruct (IH page1 Hshows1) as (page' & Hrun & Hshows' & Hshape).
      exists page'. split; [done |]. split; [done |].
      rewrite Hshape. unfold shape. by rewrite Hdata.
    + destruct (input_event_shows page i typed Hshows) as [Hshows1 Hshape1].
      destruct (IH _ Hshows1) as (page' & Hrun & Hshows' & Hshape).
      exists page'. split; [done |]. split; [done |]. by rewrite Hshape.
Qed.

Lemma unticked_boxes (keys : list string) col :
  ¬ ticked ((λ col, {| cb_column := col; checked := false |}) <$> keys) col.
Proof.
  unfold ticked. intros (k & Heq & _)%list_elem_of_fmap_1. done.
Qed.

Lemma row_cells_rendered rows boxes n (row : Row) :
  rows !! n = Some row → (∀ col, ¬ ticked boxes col) →
  Forall (rendered rows boxes) (row_cells n row).
Proof.
  intros Hrow Hboxes. unfold row_cells. apply Forall_fmap, Forall_forall.
  intros col _. exists row. simpl. split; [done |].
  by rewrite decide_False by apply Hboxes.
Qed.

Lemma imap_row_cells_rendered rows boxes (rest : list Row) : ∀ n,
  (∀ i row, rest !! i = Some row → rows !! (n + i) = Some row) →
  (∀ col, ¬ ticked boxes col) →
  Forall (rendered rows boxes) (mjoin (imap (λ i, row_cells (n + i)) rest)).
Proof.
  induction rest as [|row rest IH]; intros n Hrest Hboxes; simpl; [constructor |].
  apply Forall_app. split.
  - apply row_cells_rendered; [|done]. apply (Hrest 0 row). done.
  - rewrite (imap_ext _ (λ i, row_cells (S n + i))).
    + apply IH; [|done]. intros i r Hr. replace (S n + i) with (n + S i) by lia.
      by apply Hrest.
    + intros i r _. simpl. f_equal. lia.
Qed.

Lemma load_shows Papa_parse content page rows :
  Papa_parse content = Ok rows →
  Forall (λ row : Row, NoDup (Object_keys row)) rows →
  Forall (λ col, plain_name col = true) (header rows) →
  shows_csvData (csvInput_change Papa_parse (Some content) page).1 ∧
  shape (csvInput_change Papa_parse (Some content) page).1 = Some (Object_keys <$> rows).
Proof.
  intros Hparse Hkeys Hplain. unfold csvInput_change. rewrite Hparse.
  unfold buildTable. simpl. split; [|by destruct rows].
  exists rows. destruct rows as [|first rest]; simpl.
  { repeat split; constructor. }
  split; [done |]. split; [done |]. split; [|split; [done |split]].
  - rewrite <- list_fmap_compose. apply list_fmap_id.
  - rewrite fmap_app. f_equal; [apply row_cells_slots |].
    apply (buildTable_slots rest 1).
  - apply Forall_app. split.
    + apply row_cells_rendered; [done | apply unticked_boxes].
    + apply (imap_row_cells_rendered (first :: rest) _ rest 1); [done |].
      apply unticked_boxes.
Qed.

Lemma rendered_unique rows boxes (tds1 : list Cell) : ∀ tds2,
  cell_slot <$> tds1 = cell_slot <$> tds2 →
  Forall (rendered rows boxes) tds1 → Forall (rendered rows boxes) tds2 →
  tds1 = tds2.
Proof.
  induction tds1 as [|cell1 tds1 IH]; intros [|cell2 tds2]; try done.
  rewrite !fmap_cons. intros [= Hcol Hrow Hrest].
  intros [(row1 & Hrow1 & Hcontent1) H1]%Forall_cons
         [(row2 & Hrow2 & Hcontent2) H2]%Forall_cons.
  f_equal; [|by apply IH].
  destruct cell1 as [c1 r1 content1], cell2 as [c2 r2 content2]. simpl in *.
  subst. rewrite Hrow1 in Hrow2. by injection Hrow2 as ->.
Qed.

Lemma checkbox_change_twice page i :
  shows_csvData page →
  ∃ page1, checkbox_change i page = Some page1 ∧ checkbox_change i page1 = Some page.
Proof.
  intros Hshows.
  destruct (checkbox_change_shows page i Hshows) as (page1 & Hpage1 & Hshows1 & Hdata1).
  exists page1. split; [done |].
  destruct (checkbox_change_shows page1 i Hshows1) as (page2 & Hpage2 & Hshows2 & Hdata2).
  rewrite Hpage2. f_equal.
  destruct (checkboxes page !! i) as [checkbox |] eqn:Hbox.
  2: { unfold checkbox_change in Hpage1. rewrite Hbox in Hpage1.
       injection Hpage1 as <-. unfold checkbox_change in Hpage2.
       rewrite Hbox in Hpage2. by injection Hpage2 as <-. }
  unfold checkbox_change, toggleModification in Hpage1. rewrite Hbox in Hpage1.
  destruct (querySelectorAll _) as [selected1 |]; [|done].
  injection Hpage1 as <-.
  assert (checkboxes page2 = checkboxes page ∧
          downloadButton_shown page2 = downloadButton_shown page ∧
          cell_slot <$> cells page2 = cell_slot <$> cells page) as (Hboxes & Hshown & Hslots).
  { unfold checkbox_change, toggleModification in Hpage2. simpl in Hpage2.
    rewrite list_lookup_insert_eq in Hpage2 by (by eapply lookup_lt_Some).
    destruct (querySelectorAll _) as [selected2 |]; [|done].
    injection Hpage2 as <-. simpl. rewrite list_insert_insert_eq.
    rewrite !toggle_cells_slots. split; [|done].
    apply list_insert_id. rewrite Hbox. f_equal.
    destruct checkbox as [col []]; done. }
  simpl in Hdata2.
  destruct Hshows as (rows & Hrows & _ & _ & _ & _ & Hcells).
  destruct Hshows2 as (rows2 & Hrows2 & _ & _ & _ & _ & Hcells2).
  assert (rows2 = rows) as -> by congruence.
  rewrite Hboxes in Hcells2.
  pose proof (rendered_unique _ _ _ _ Hslots Hcells2 Hcells) as Hcells'.
  destruct page2, page. simpl in *. congruence.
Qed.

Lemma load_boxes Papa_parse content page rows :
  Papa_parse content = Ok rows →
  checkboxes (csvInput_change Papa_parse (Some content) page).1
  = (λ col, {| cb_column := col; checked := false |}) <$> header rows.
Proof.
  intros Hparse. unfold csvInput_change. rewrite Hparse.
  unfold buildTable. simpl. by destruct rows.
Qed.

(** From the load of a file on, the table follows the rows: whatever boxes
    the user ticks and whatever they type, every event is handled, the rows
    keep their number and their columns, every cell shows the value that
    [csvData] holds now for its row and column (in an input when the box of
    its column is ticked, as text when it is not), and the download hands
    exactly these rows to [Papa.unparse]. *)
Theorem table_follows_edits Papa_parse Papa_unparse content page rows events :
  Papa_parse content = Ok rows →
  Forall (λ row : Row, NoDup (Object_keys row)) rows →
  Forall (λ col, plain_name col = true) (header rows) →
  ∃ page' rows',
    run events (csvInput_change Papa_parse (Some content) page).1 = Some page' ∧
    csvData page' = Some rows' ∧
    Object_keys <$> rows' = Object_keys <$> rows ∧
    cb_column <$> checkboxes page' = header rows ∧
    cell_slot <$> cells page' = slots_from 0 rows ∧
    Forall (rendered rows' (checkboxes page')) (cells page') ∧
    (rows ≠ [] →
     (downloadButton_click Papa_unparse page').2
     = [Download "modified.csv" (Papa_unparse rows')]).
Proof.
  intros Hparse Hkeys Hplain.
  destruct (load_shows Papa_parse content page rows Hparse Hkeys Hplain)
    as [Hshows Hshape].
  destruct (run_shows events _ Hshows)
    as (page' & Hrun & (rows' & Hrows' & _ & Hboxes & _ & Hslots & Hcells) & Hshape').
  rewrite Hshape in Hshape'. unfold shape in Hshape'. rewrite Hrows' in Hshape'.
  injection Hshape' as Hsame.
  exists page', rows'. split; [done |]. split; [done |]. split; [done |].
  rewrite <- (header_keys _ _ Hsame), <- (slots_from_keys _ _ _ Hsame).
  split; [done |]. split; [done |]. split; [done |].
  intros Hne. unfold downloadButton_click. rewrite Hrows'.
  destruct rows' as [|row' rest']; [by destruct rows |]. done.
Qed.

Lemma people_keys : Forall (λ row : Row, NoDup (Object_keys row)) people.
Proof. apply (bool_decide_unpack _). vm_compute. exact I. Qed.

Lemma table_follows_edits_witness :
  ∃ page' rows',
    run [Tick 1; Typing 3 "26"; Tick 1]
      (csvInput_change (λ _, Ok people) (Some "people.csv") initial).1 = Some page' ∧
    csvData page' = Some rows' ∧
    Forall (rendered rows' (checkboxes page')) (cells page') ∧
    (downloadButton_click (λ _, "text") page').2 = [Download "modified.csv" "text"].
Proof.
  destruct (table_follows_edits (λ _, Ok people) (λ _, "text") "people.csv" initial
              people [Tick 1; Typing 3 "26"; Tick 1])
    as (page' & rows' & Hrun & Hrows & _ & _ & _ & Hcells & Hdownload).
  - reflexivity.
  - exact people_keys.
  - repeat constructor.
  - exists page', rows'. split; [exact Hrun |]. split; [exact Hrows |].
    split; [exact Hcells |]. by apply Hdownload.
Defined.

(** On a page reached from the load of a file by ticking and typing, the
    change event of a box followed by the change event of the same box
    gives the page back as it was: the rows, the boxes and every cell. *)
Theorem untick_restores_page Papa_parse content page0 rows events page i :
  Papa_parse content = Ok rows →
  Forall (λ row : Row, NoDup (Object_keys row)) rows →
  Forall (λ col, plain_name col = true) (header rows) →
  run events (csvInput_change Papa_parse (Some content) page0).1 = Some page →
  ∃ page1, checkbox_change i page = Some page1 ∧ checkbox_change i page1 = Some page.
Proof.
  intros Hparse Hkeys Hplain Hrun.
  destruct (load_shows Papa_parse content page0 rows Hparse Hkeys Hplain)
    as [Hshows _].
  destruct (run_shows events _ Hshows) as (page' & Hrun' & Hshows' & _).
  assert (page' = page) as -> by congruence.
  by apply checkbox_change_twice.
Qed.

Lemma untick_restores_page_witness :
  ∃ page1,
    checkbox_change 1 editing_page = Some page1 ∧
    checkbox_change 1 page1 = Some editing_page.
Proof.
  apply (untick_restores_page (λ _, Ok people) "people.csv" initial people [Tick 1]).
  - reflexivity.
  - exact people_keys.
  - repeat constructor.
  - reflexivity.
Defined.

(** ** C7: write-through edits on the page *)

Lemma input_event_reads page rows i typed :
  csvData page = Some rows → Forall (in_range rows) (cells page) →
  ∃ rows1,
    csvData (input_event i typed page) = Some rows1 ∧
    length rows1 = length rows ∧
    ∀ ri col,
      read_cell rows1 ri col
      = if decide (input_slot page i = Some (ri, col)) then Ok (Str typed)
        else read_cell rows ri col.
Proof.
  intros Hrows Hrange. unfold input_event, input_slot.
  destruct (cells page !! i) as [[c r [v | v column ri']] |] eqn:Hcell;
    cbn [td_content].
  - exists rows. split; [done |]. split; [done |]. intros ri col.
    by rewrite decide_False.
  - pose proof (Forall_lookup_1 _ _ _ _ Hrange Hcell) as [_ Hri]. simpl in Hri.
    destruct (input_listener_writes rows ri' column typed Hri)
      as (rows1 & Hwrite & Hlen & Hread).
    rewrite Hrows, Hwrite. exists rows1. split; [done |]. split; [done |].
    intros ri col. rewrite Hread.
    destruct (decide (ri' = ri ∧ column = col)) as [[-> ->] | Hne].
    + by rewrite decide_True.
    + rewrite decide_False; [done |]. intros [= -> ->]. by apply Hne.
  - exists rows. split; [done |]. split; [done |]. intros ri col.
    by rewrite decide_False.
Qed.

Lemma checkbox_change_keeps_rows page i page1 :
  checkbox_change i page = Some page1 → csvData page1 = csvData page.
Proof.
  unfold checkbox_change.
  destruct (checkboxes page !! i) as [checkbox |]; [|by intros [= <-]].
  by intros [-> _]%toggleModification_keeps_rows.
Qed.

Lemma run_last_typed events : ∀ page rows page',
  csvData page = Some rows → Forall (in_range rows) (cells page) →
  run events page = Some page' →
  ∃ rows',
    csvData page' = Some rows' ∧
    length rows' = length rows ∧
    ∀ ri col,
      read_cell rows' ri col
      = match last_typed events page ri col with
        | Some typed => Ok (Str typed)
        | None => read_cell rows ri col
        end.
Proof.
  induction events as [|event events IH]; intros page rows page' Hrows Hrange; simpl.
  { intros [= <-]. by exists rows. }
  destruct (step event page) as [page1 |] eqn:Hstep; simpl; [|done].
  intros Hrun. destruct event as [i | i typed]; simpl in Hstep.
  - pose proof (checkbox_change_keeps_rows _ _ _ Hstep) as Hrows1.
    rewrite Hrows in Hrows1.
    destruct (checkbox_change_slots_in_range page i page1) as (rows1 & Hsame & Hrange1);
      [by exists rows | done |].
    assert (rows1 = rows) as -> by congruence.
    destruct (IH page1 rows page' Hrows1 Hrange1 Hrun) as (rows' & Hrows' & Hlen & Hread).
    exists rows'. split; [done |]. split; [done |]. intros ri col.
    rewrite Hread. by destruct (last_typed events page1 ri col).
  - injection Hstep as <-.
    destruct (input_event_reads page rows i typed Hrows Hrange)
      as (rows1 & Hrows1 & Hlen1 & Hread1).
    destruct (input_event_slots_in_range page i typed) as (rows2 & Hsame & Hrange1);
      [by exists rows |].
    assert (rows2 = rows1) as -> by congruence.
    destruct (IH _ rows1 page' Hrows1 Hrange1 Hrun) as (rows' & Hrows' & Hlen & Hread).
    exists rows'. split; [done |]. split; [congruence |]. intros ri col.
    rewrite Hread, Hread1.
    destruct (last_typed events _ ri col); [done |]. by destruct (decide _).
Qed.

Lemma load_slots_in_range Papa_parse content page rows :
  Papa_parse content = Ok rows →
  csvData (csvInput_change Papa_parse (Some content) page).1 = Some rows ∧
  Forall (in_range rows) (cells (csvInput_change Papa_parse (Some content) page).1).
Proof.
  intros Hparse. unfold csvInput_change. rewrite Hparse. cbn [fst csvData cells].
  set (start := {| csvData := Some rows; checkboxes := checkboxes page;
                   cells := cells page;
                   downloadButton_shown := downloadButton_shown page |}).
  destruct (buildTable_slots_in_range start rows eq_refl) as (rows' & Hrows' & Hrange).
  assert (csvData (buildTable start) = Some rows) as Hrows.
  { unfold buildTable. simpl. by destruct rows. }
  split; [done |]. by assert (rows' = rows) as -> by congruence.
Qed.

(** C7: on a page that shows a loaded file, every input event writes its
    text into [csvData] at once, at the slot its input element stands for:
    after any sequence of box changes and input events, every cell of
    [csvData] reads as the text of the last input event on an input of its
    slot (as loaded when there was none), whatever was written to other
    slots in between. *)
Theorem write_through_last_value Papa_parse content page rows events page' :
  Papa_parse content = Ok rows →
  run events (csvInput_change Papa_parse (Some content) page).1 = Some page' →
  ∃ rows',
    csvData page' = Some rows' ∧
    length rows' = length rows ∧
    ∀ ri col,
      read_cell rows' ri col
      = match last_typed events (csvInput_change Papa_parse (Some content) page).1
                ri col with
        | Some typed => Ok (Str typed)
        | None => read_cell rows ri col
        end.
Proof.
  intros Hparse Hrun.
  destruct (load_slots_in_range Papa_parse content page rows Hparse) as [Hrows Hrange].
  by apply (run_last_typed events _ rows page').
Qed.

Lemma write_through_last_value_witness :
  ∃ page' rows',
    run [Tick 1; Typing 3 "2"; Typing 1 "31"; Typing 3 "26"]
      (csvInput_change (λ _, Ok people) (Some "people.csv") initial).1 = Some page' ∧
    csvData page' = Some rows' ∧
    read_cell rows' 1 "age" = Ok (Str "26") ∧
    read_cell rows' 0 "age" = Ok (Str "31") ∧
    read_cell rows' 1 "name" = Ok (Str "Bob").
Proof.
  edestruct (write_through_last_value (λ _, Ok people) "people.csv" initial people
               [Tick 1; Typing 3 "2"; Typing 1 "31"; Typing 3 "26"])
    as (rows' & Hrows & _ & Hread); [reflexivity | reflexivity |].
  eexists _, rows'. split; [reflexivity |]. split; [exact Hrows |].
  rewrite !Hread. repeat split; vm_compute; reflexivity.
Defined.

(** On the crafted header the input that the tick puts into the cell of
    column [a] stands for the first column: typing into it writes there. *)
Example typing_on_crafted_header :
  ∃ page' rows',
    run [Tick 0; Typing 1 "x"] crafted_page = Some page' ∧
    input_slot (default crafted_page (checkbox_change 0 crafted_page)) 1
    = Some (0, crafted_name) ∧
    csvData page' = Some rows' ∧
    read_cell rows' 0 crafted_name = Ok (Str "x") ∧
    read_cell rows' 0 "a" = Ok (Str "1").
Proof. eexists _, _. repeat split; vm_compute; reflexivity. Qed.

(** ** Columns that were never ticked *)

Lemma toggle_cells_no_input rows selected c isChecked col tds :
  c ≠ col → Forall (no_input_of col) tds →
  Forall (no_input_of col) (toggle_cells rows selected c isChecked tds).
Proof.
  intros Hc. induction 1 as [|cell tds Hcell Htds IH]; simpl; [constructor |].
  destruct (decide _); [|by constructor].
  destruct (rows ≫= _) as [cell' |] eqn:Htoggle; [|by constructor].
  constructor; [|done].
  destruct rows as [rows |]; [|done]. simpl in Htoggle. unfold toggle_cell in Htoggle.
  destruct (rows !! td_rowIndex cell); [|done]. injection Htoggle as <-.
  unfold no_input_of. simpl. by destruct isChecked.
Qed.

Lemma checkbox_change_no_input page i page1 col :
  (cb_column <$> checkboxes page) !! i ≠ Some col →
  Forall (no_input_of col) (cells page) →
  checkbox_change i page = Some page1 →
  Forall (no_input_of col) (cells page1) ∧
  cb_column <$> checkboxes page1 = cb_column <$> checkboxes page.
Proof.
  intros Hcol Hcells. unfold checkbox_change.
  destruct (checkboxes page !! i) as [checkbox |] eqn:Hbox; [|by intros [= <-]].
  unfold toggleModification. destruct (querySelectorAll _) as [selected |]; [|done].
  intros [= <-]. simpl. split.
  - apply toggle_cells_no_input; [|done]. intros <-. apply Hcol.
    by rewrite list_lookup_fmap, Hbox.
  - rewrite list_fmap_insert. apply list_insert_id.
    by rewrite list_lookup_fmap, Hbox.
Qed.

Lemma input_event_no_input page i typed col :
  Forall (no_input_of col) (cells page) →
  Forall (no_input_of col) (cells (input_event i typed page)) ∧
  checkboxes (input_event i typed page) = checkboxes page ∧
  column_values col <$> csvData (input_event i typed page)
  = column_values col <$> csvData page.
Proof.
  intros Hcells. unfold input_event.
  destruct (cells page !! i) as [[c r [v | v column ri]] |] eqn:Hcell; try done.
  pose proof (Forall_lookup_1 _ _ _ _ Hcells Hcell) as Hne.
  unfold no_input_of in Hne. simpl in Hne. simpl. split; [|split; [done |]].
  - by apply Forall_insert.
  - destruct (csvData page) as [rows |]; [|done]. unfold input_listener.
    destruct (rows !! ri) as [row |] eqn:Hrow; [|done]. simpl. f_equal.
    unfold column_values. rewrite list_fmap_insert. apply list_insert_id.
    rewrite list_lookup_fmap, Hrow. simpl. f_equal.
    symmetry. by apply get_set_prop_other.
Qed.

Lemma run_keeps_column events col : ∀ page page',
  Forall (no_input_of col) (cells page) →
  (∀ j, (cb_column <$> checkboxes page) !! j = Some col → Tick j ∉ events) →
  run events page = Some page' →
  column_values col <$> csvData page' = column_values col <$> csvData page.
Proof.
  induction events as [|event events IH]; intros page page' Hcells Hticks; simpl.
  { by intros [= <-]. }
  destruct (step event page) as [page1 |] eqn:Hstep; simpl; [|done].
  intros Hrun. destruct event as [i | i typed]; simpl in Hstep.
  - destruct (checkbox_change_no_input page i page1 col) as [Hcells1 Hboxes]; try done.
    { intros Hi. apply (Hticks i Hi). by left. }
    rewrite (IH page1 page' Hcells1); [|by (intros j Hj Hin; rewrite Hboxes in Hj;
      apply (Hticks j Hj); right) | done].
    by rewrite (checkbox_change_keeps_rows _ _ _ Hstep).
  - injection Hstep as <-.
    destruct (input_event_no_input page i typed col Hcells) as (Hcells1 & Hboxes & Hvalues).
    rewrite (IH _ page' Hcells1); [done | | done].
    intros j Hj Hin. rewrite Hboxes in Hj. apply (Hticks j Hj). by right.
Qed.

Lemma load_no_input Papa_parse content page rows col :
  Papa_parse content = Ok rows →
  Forall (no_input_of col) (cells (csvInput_change Papa_parse (Some content) page).1).
Proof.
  intros Hparse. unfold csvInput_change. rewrite Hparse. unfold buildTable. simpl.
  destruct rows as [|first rest]; [constructor |]. cbn [cells].
  apply Forall_join, Forall_forall. intros tds (i & row & -> & Hi)%elem_of_lookup_imap.
  apply Forall_forall. by intros cell (c & -> & _)%list_elem_of_fmap.
Qed.

(** Typing reaches the columns whose box was ticked and no other: a column
    whose box was never changed since the load, or that has no box, holds
    in every row the value that was loaded, whatever the names of the
    columns are. *)
Theorem unticked_columns_keep_values Papa_parse content page rows events page' col :
  Papa_parse content = Ok rows →
  run events (csvInput_change Papa_parse (Some content) page).1 = Some page' →
  (∀ j, header rows !! j = Some col → Tick j ∉ events) →
  ∃ rows',
    csvData page' = Some rows' ∧ column_values col rows' = column_values col rows.
Proof.
  intros Hparse Hrun Hticks.
  destruct (load_slots_in_range Papa_parse content page rows Hparse) as [Hrows _].
  pose proof (run_keeps_column events col _ page'
                (load_no_input Papa_parse content page rows col Hparse)) as Hframe.
  rewrite (load_boxes Papa_parse content page rows Hparse), Hrows in Hframe.
  rewrite <- list_fmap_compose, list_fmap_id in Hframe.
  specialize (Hframe Hticks Hrun).
  destruct (csvData page') as [rows' |]; [|done].
  exists rows'. split; [done |]. by injection Hframe.
Qed.

Lemma unticked_columns_keep_values_witness :
  ∃ page' rows',
    run [Tick 0; Typing 1 "x"] crafted_page = Some page' ∧
    csvData page' = Some rows' ∧
    column_values "a" rows' = [Str "1"].
Proof.
  edestruct (unticked_columns_keep_values
               (λ _, Ok [[(crafted_name, Str "w"); ("a", Str "1"); ("b", Str "2")]])
               "crafted.csv"
               {| csvData := Some []; checkboxes := []; cells := [];
                  downloadButton_shown := true |}
               [[(crafted_name, Str "w"); ("a", Str "1"); ("b", Str "2")]]
               [Tick 0; Typing 1 "x"]
               (default initial (run [Tick 0; Typing 1 "x"] crafted_page)) "a")
    as (rows' & Hrows & Hvalues).
  - reflexivity.
  - reflexivity.
  - intros [|[|[|j]]] Hj Hin; try discriminate Hj.
    apply elem_of_cons in Hin as [Hin | Hin]; [discriminate Hin |].
    apply elem_of_cons in Hin as [Hin | Hin]; [discriminate Hin |].
    by apply elem_of_nil in Hin.
  - eexists _, rows'. split; [reflexivity |]. split; [exact Hrows |]. exact Hvalues.
Defined.
